(** * Source entity extraction of the Gradio MCP server builder

    A shallow embedding of [source/parser.py] (class [MCPParser]) and of the
    parsing stage of [source/builder.py] (class [GradioMCPBuilder]), with the
    properties of the extractor stated and proved over it.

    Conventions.
    - A Python [str] is a [string]; each character stands for the code point
      of the same number (code points 0 to 255).
    - The syntax tree is the one Python's [ast] module builds; [ast.parse],
      [ast.unparse] and the file system are the interpreter's, not the
      repository's, and are parameters of the development.
    - A Python exception is a value [Raise e] of the type [result]. *)

From Stdlib Require Import String Ascii List Arith Bool Lia PArith.
From stdpp Require Import base option list strings gmap.

#[local] Set Warnings "-register-all".

Local Open Scope string_scope.
Local Open Scope list_scope.

(** ** Python string operations used by the parser *)

Module PyStr.

(** [str.isspace] on one character, for the code points below 256:
    U+0009..U+000D, U+001C..U+0020, U+0085 and U+00A0. *)
Definition is_space (c : ascii) : bool :=
  let n := nat_of_ascii c in
  (((9 <=? n) && (n <=? 13)) || ((28 <=? n) && (n <=? 32))
   || (n =? 133) || (n =? 160))%nat.

(** [s.lstrip()] *)
Fixpoint lstrip (s : string) : string :=
  match s with
  | EmptyString => EmptyString
  | String c s' => if is_space c then lstrip s' else s
  end.

(** [s.rstrip()]: a character is kept when something that is not white
    space follows it or it is not white space itself. *)
Fixpoint rstrip (s : string) : string :=
  match s with
  | EmptyString => EmptyString
  | String c s' =>
      match rstrip s' with
      | EmptyString => if is_space c then EmptyString else String c EmptyString
      | r => String c r
      end
  end.

(** [s.strip()] *)
Definition strip (s : string) : string := rstrip (lstrip s).

(** [s.startswith(p)] *)
Definition startswith (p s : string) : bool := String.prefix p s.

(** [sub in s] *)
Fixpoint contains (sub s : string) : bool :=
  String.prefix sub s ||
  match s with
  | EmptyString => false
  | String _ s' => contains sub s'
  end.

(** Truth value of a string: [bool(s)]. *)
Definition truthy (s : string) : bool :=
  match s with EmptyString => false | _ => true end.

(** [s.split(sep)] for a separator of one character. *)
Fixpoint split (sep : ascii) (s : string) : list string :=
  match s with
  | EmptyString => [EmptyString]
  | String c s' =>
      if Ascii.eqb c sep then EmptyString :: split sep s'
      else match split sep s' with
           | [] => [String c EmptyString]
           | w :: ws => String c w :: ws
           end
  end.

(** [sep.join(l)] *)
Definition join (sep : string) (l : list string) : string :=
  String.concat sep l.

(** [len(line) - len(line.lstrip())]: the width of the leading white
    space. *)
Definition indent_of (line : string) : nat :=
  String.length line - String.length (lstrip line).

(** [l[a:b]] for [0 <= a] and [0 <= b]. *)
Definition slice {A} (l : list A) (a b : nat) : list A :=
  take (b - a) (drop a l).

Definition nl : ascii := ascii_of_nat 10.
Definition NL : string := String nl EmptyString.

(** [s.split(sep, 1)] for a separator of one character. *)
Fixpoint split_once (sep : ascii) (s : string) : list string :=
  match s with
  | EmptyString => [EmptyString]
  | String c s' =>
      if Ascii.eqb c sep then [EmptyString; s']
      else match split_once sep s' with
           | [] => [String c EmptyString]
           | w :: ws => String c w :: ws
           end
  end.

(** [s[1:]] *)
Definition from_second (s : string) : string :=
  match s with
  | EmptyString => EmptyString
  | String _ s' => s'
  end.

End PyStr.

(** ** Exceptions *)

Inductive exn : Type :=
| IndexError
| SyntaxError
| OSError
| ValueError (msg : string)
| OtherError (msg : string).

Inductive result (A : Type) : Type :=
| Ok (a : A)
| Raise (e : exn).
Arguments Ok {A} a.
Arguments Raise {A} e.

Definition rbind {A B} (r : result A) (k : A -> result B) : result B :=
  match r with
  | Ok a => k a
  | Raise e => Raise e
  end.

Notation "x <- r ;; k" := (rbind r (fun x => k))
  (at level 100, r at next level, right associativity).

Fixpoint rmap {A B} (f : A -> result B) (l : list A) : result (list B) :=
  match l with
  | [] => Ok []
  | a :: l' => b <- f a ;; bs <- rmap f l' ;; Ok (b :: bs)
  end.

(** ** The syntax tree of the [ast] module, as far as the parser reads it *)

Inductive expr : Type :=
| Name (id : string)
| Attribute (value : expr) (attr : string)
| Call (func : expr) (call_args : list expr)
| Subscript (value : expr) (slice : expr)
| Tuple (elts : list expr)
| Constant (repr : string).

(** [ast.alias] *)
Record alias : Type := { alias_name : string; asname : option string }.

(** [ast.arg] *)
Record ast_arg : Type := { arg : string; annotation : option expr }.

(** [ast.arguments]; the default values are left out, the parser never
    reads them. *)
Record arguments : Type := {
  posonlyargs : list ast_arg;
  args : list ast_arg;
  vararg : option ast_arg;
  kwonlyargs : list ast_arg;
  kwarg : option ast_arg
}.

(** [ast.FunctionDef]. [lineno] is the 1-based line of the [def] keyword.
    The body is represented by what the parser reads of it:
    [fd_docstring] is the value of [ast.get_docstring(node)]. *)
Record FunctionDef : Type := {
  fd_name : string;
  fd_args : arguments;
  fd_decorator_list : list expr;
  fd_returns : option expr;
  fd_lineno : positive;
  fd_docstring : option string
}.

Inductive stmt : Type :=
| Import (names : list alias)
| ImportFrom (module : option string) (names : list alias) (level : nat)
| Assign (targets : list expr) (lineno : positive)
| AnnAssign (target : expr) (ann : expr) (has_value : bool) (lineno : positive)
| AugAssign (target : expr) (lineno : positive)
| FunctionDefStmt (fd : FunctionDef)
| AsyncFunctionDefStmt (fd : FunctionDef)
| ClassDef (cname : string) (cbody : list stmt) (lineno : positive)
| OtherStmt (lineno : positive).

(** [ast.Module] with the value of [ast.get_docstring(tree)]. *)
Record ModuleAst : Type := {
  body : list stmt;
  mod_docstring : option string
}.

(** ** The interpreter's side

    What the parser asks of Python itself: rendering an expression back to
    text, reading a file, and building the syntax tree of a text. *)
Class Interpreter : Type := {
  (** [ast.unparse] *)
  unparse : expr -> result string;
  (** [pathlib.Path] *)
  Path : Type;
  (** [open(file_path, "r", encoding="utf-8").read()] *)
  read_text : Path -> result string;
  (** [ast.parse] *)
  ast_parse : string -> result ModuleAst
}.

(** ** [MCPParser]: records built by the parser *)

(** [MCPFunction] as [parse_file] leaves it: the constructor is called with
    [func=None], its fallback values of [source_code] and [line_number] are
    overwritten at once, and [module_imports] is attached. *)
Record MCPFunction : Type := {
  name : string;
  docstring : string;
  signature : string;
  source_code : string;
  line_number : positive;
  module_imports : list string
}.

(** One record of the logger at level WARNING. *)
Inductive warning : Type :=
| FailedConstant (target_id : string) (e : exn)
| FailedMcpFunction (fname : string) (e : exn)
| FailedHelperFunction (fname : string) (e : exn)
| FailedMcpClassMethod (fname : string) (e : exn)
| FailedHelperClassMethod (fname : string) (e : exn).

(** The dictionary [parse_file] returns, with the warnings it logged. *)
Record ParseResult : Type := {
  mcp_functions : list MCPFunction;
  helper_functions : list MCPFunction;
  module_constants : list string;
  other_functions : list MCPFunction;
  module_docstring : string;
  result_imports : list string;
  content : string;
  warnings : list warning
}.

Module MCPParser.

Import PyStr.

(** *** Span recovery: [_extract_function_source] *)

(** The loop [for i in range(start_line - 1, -1, -1)]; [n] is the number
    of indices left, so the next index read is [n - 1]. *)
Fixpoint scan_decorators (lines : list string) (n start_line : nat)
  : result nat :=
  match n with
  | O => Ok start_line
  | S i =>
      match lines !! i with
      | None => Raise IndexError
      | Some l =>
          let line := strip l in
          if startswith "@" line then scan_decorators lines i i
          else if truthy line && negb (startswith "#" line) then Ok start_line
          else scan_decorators lines i start_line
      end
  end.

(** The test that ends a function's span at a line. *)
Definition function_boundary (func_indent : nat) (line : string) : bool :=
  truthy (strip line)
  && ((indent_of line <=? func_indent)%nat
      && (startswith "def " (strip line)
          || startswith "class " (strip line)
          || startswith "@" (strip line))).

(** The loops [for i in range(first, len(lines))] that stop at the first
    line satisfying [boundary]; [rest] is [lines[i:]] and [end_line] the
    value set before the loop. *)
Fixpoint scan_end (boundary : string -> bool) (rest : list string)
    (i end_line : nat) : nat :=
  match rest with
  | [] => end_line
  | line :: rest' =>
      if boundary line then i else scan_end boundary rest' (S i) end_line
  end.

Definition _extract_function_source (content : string) (node : FunctionDef)
  : result string :=
  let lines := split nl content in
  let lineno := Pos.to_nat (fd_lineno node) in
  start_line <- scan_decorators lines (lineno - 1) (lineno - 1) ;;
  match lines !! (lineno - 1) with
  | None => Raise IndexError
  | Some def_line =>
      let func_indent := indent_of def_line in
      let end_line :=
        scan_end (function_boundary func_indent) (drop lineno lines)
                 lineno (length lines) in
      Ok (join NL (slice lines start_line end_line))
  end.

(** *** Signature synthesis: [_build_signature_string] *)

Section Signature.

Context {I : Interpreter}.

Definition arg_str (a : ast_arg) : result string :=
  match annotation a with
  | None => Ok (arg a)
  | Some t => s <- unparse t ;; Ok (arg a +:+ ": " +:+ s)
  end.

Definition _build_signature_string (node : FunctionDef) : result string :=
  strs <- rmap arg_str (args (fd_args node)) ;;
  let signature := "(" +:+ join ", " strs +:+ ")" in
  match fd_returns node with
  | None => Ok signature
  | Some r => s <- unparse r ;; Ok (signature +:+ " -> " +:+ s)
  end.

End Signature.

(** *** Import collection *)

(** The lines one top-level node adds to [module_imports]. Reading
    [node.names[0]] of an empty list raises [IndexError]. *)
Definition import_lines (node : stmt) : result (list string) :=
  match node with
  | Import names => Ok (map (fun a => "import " +:+ alias_name a) names)
  | ImportFrom (Some m) names _ =>
      if truthy m then
        match names with
        | [] => Raise IndexError
        | first :: _ =>
            if String.eqb (alias_name first) "*"
            then Ok ["from " +:+ m +:+ " import *"]
            else Ok ["from " +:+ m +:+ " import "
                       +:+ join ", " (map alias_name names)]
        end
      else Ok []
  | _ => Ok []
  end.

Fixpoint collect_imports (nodes : list stmt) (module_imports : list string)
  : result (list string) :=
  match nodes with
  | [] => Ok module_imports
  | node :: nodes' =>
      ls <- import_lines node ;;
      collect_imports nodes' (module_imports ++ ls)
  end.

(** *** Constant extraction *)

(** The test that ends an assignment's span at a line. *)
Definition constant_boundary (assignment_indent : nat) (line : string)
  : bool :=
  truthy (strip line)
  && ((indent_of line <=? assignment_indent)%nat
      && (startswith "def " (strip line)
          || startswith "class " (strip line)
          || startswith "@" (strip line)
          || (contains "=" line && negb (startswith "#" (strip line))))).

(** The body of the [try] for one [ast.Name] target of an assignment at
    line [lineno]: [Ok (Some c)] when [c] is appended to
    [module_constants], [Ok None] when nothing is appended. *)
Definition extract_constant (content : string) (lineno : positive)
  : result (option string) :=
  let lines := split nl content in
  let start_line := Pos.to_nat lineno - 1 in
  match lines !! start_line with
  | None => Raise IndexError
  | Some first =>
      let assignment_indent := indent_of first in
      let end_line :=
        scan_end (constant_boundary assignment_indent)
                 (drop (start_line + 1) lines) (start_line + 1)
                 (length lines) in
      let constant_lines := slice lines start_line end_line in
      match constant_lines with
      | [] => Ok None
      | _ =>
          let constant_def := strip (join NL constant_lines) in
          if truthy constant_def
             && negb (startswith "#" constant_def)
             && contains "=" constant_def
          then Ok (Some constant_def)
          else Ok None
      end
  end.

(** The accumulators of the constant loop. *)
Record CState : Type := {
  cs_constants : list string;
  cs_warnings : list warning
}.

Definition constant_target (content : string) (lineno : positive)
    (st : CState) (target : expr) : CState :=
  match target with
  | Name id =>
      match extract_constant content lineno with
      | Ok (Some c) =>
          {| cs_constants := cs_constants st ++ [c];
             cs_warnings := cs_warnings st |}
      | Ok None => st
      | Raise e =>
          {| cs_constants := cs_constants st;
             cs_warnings := cs_warnings st ++ [FailedConstant id e] |}
      end
  | _ => st
  end.

Definition constant_node (content : string) (st : CState) (node : stmt)
  : CState :=
  match node with
  | Assign targets lineno =>
      fold_left (constant_target content lineno) targets st
  | _ => st
  end.

Definition extract_constants (content : string) (nodes : list stmt)
  : CState :=
  fold_left (constant_node content) nodes
            {| cs_constants := []; cs_warnings := [] |}.

(** *** Classification of functions and methods *)

Definition is_mcp_tool (decorator : expr) : bool :=
  match decorator with
  | Call (Attribute (Name id) attr) _ =>
      String.eqb id "mcp" && String.eqb attr "tool"
  | _ => false
  end.

Definition has_mcp_decorator (node : FunctionDef) : bool :=
  existsb is_mcp_tool (fd_decorator_list node).

(** The accumulators of the function loop: [self.mcp_functions], the
    local [helper_functions] and the logged warnings. *)
Record FState : Type := {
  fs_mcp : list MCPFunction;
  fs_helpers : list MCPFunction;
  fs_warnings : list warning
}.

Section Classify.

Context {I : Interpreter}.
Variable content : string.
Variable imports : list string.

(** The body of each of the four [try] blocks. *)
Definition make_function (node : FunctionDef) : result MCPFunction :=
  func_source <- _extract_function_source content node ;;
  let doc := default "" (fd_docstring node) in
  sig <- _build_signature_string node ;;
  Ok {| name := fd_name node;
        docstring := doc;
        signature := sig;
        source_code := func_source;
        line_number := fd_lineno node;
        module_imports := imports |}.

Definition add_function (in_class : bool) (st : FState)
    (node : FunctionDef) : FState :=
  if has_mcp_decorator node then
    match make_function node with
    | Ok f =>
        {| fs_mcp := fs_mcp st ++ [f];
           fs_helpers := fs_helpers st;
           fs_warnings := fs_warnings st |}
    | Raise e =>
        {| fs_mcp := fs_mcp st;
           fs_helpers := fs_helpers st;
           fs_warnings := fs_warnings st ++
             [(if in_class then FailedMcpClassMethod
               else FailedMcpFunction) (fd_name node) e] |}
    end
  else
    match make_function node with
    | Ok f =>
        {| fs_mcp := fs_mcp st;
           fs_helpers := fs_helpers st ++ [f];
           fs_warnings := fs_warnings st |}
    | Raise e =>
        {| fs_mcp := fs_mcp st;
           fs_helpers := fs_helpers st;
           fs_warnings := fs_warnings st ++
             [(if in_class then FailedHelperClassMethod
               else FailedHelperFunction) (fd_name node) e] |}
    end.

Definition class_node (st : FState) (node : stmt) : FState :=
  match node with
  | FunctionDefStmt fd => add_function true st fd
  | _ => st
  end.

Definition top_node (st : FState) (node : stmt) : FState :=
  match node with
  | FunctionDefStmt fd => add_function false st fd
  | ClassDef _ cbody _ => fold_left class_node cbody st
  | _ => st
  end.

Definition classify (nodes : list stmt) : FState :=
  fold_left top_node nodes
            {| fs_mcp := []; fs_helpers := []; fs_warnings := [] |}.

End Classify.

(** *** [parse_file] *)

Section ParseFile.

Context {I : Interpreter}.

(** [parse_file] from the point where the text has been read and
    [ast.parse] has returned [tree]. *)
Definition parse_tree (text : string) (tree : ModuleAst)
  : result ParseResult :=
  imports <- collect_imports (body tree) [] ;;
  let cs := extract_constants text (body tree) in
  let fs := classify text imports (body tree) in
  Ok {| mcp_functions := fs_mcp fs;
        helper_functions := fs_helpers fs;
        module_constants := cs_constants cs;
        other_functions := [];
        module_docstring := default "" (mod_docstring tree);
        result_imports := imports;
        content := text;
        warnings := cs_warnings cs ++ fs_warnings fs |}.

(** Reading the file and [ast.parse]. *)
Definition parse_file (file_path : Path) : result ParseResult :=
  text <- read_text file_path ;;
  tree <- ast_parse text ;;
  parse_tree text tree.

End ParseFile.

End MCPParser.

(** ** [GradioMCPBuilder]: the parsing stage and the order of the build *)

(** The steps [build] calls, in the order of the calls. *)
Inductive Step : Type :=
| ParseInputFiles
| ImproveDocstrings
| GenerateTestPrompts
| CreateOutputDirectories
| GenerateServerFiles
| GenerateClientFiles
| GenerateDocumentation
| GenerateRequirements
| GenerateConfigFile.

(** The steps that write a generated artifact. *)
Definition is_generation (s : Step) : bool :=
  match s with
  | GenerateServerFiles | GenerateClientFiles | GenerateDocumentation
  | GenerateRequirements | GenerateConfigFile => true
  | _ => false
  end.

(** The data the builder stores and the parsing stage writes. *)
Record Builder : Type := {
  b_mcp_functions : list MCPFunction;
  b_helper_functions : list MCPFunction;
  b_module_constants : list string
}.

(** [GradioMCPBuilder.__init__] *)
Definition new_builder : Builder :=
  {| b_mcp_functions := []; b_helper_functions := [];
     b_module_constants := [] |}.

(** Everything outside the builder's own data that the later steps act on
    (the output directory, the docstring tables, the model service), and
    what each of these steps does to it. *)
Class Surroundings : Type := {
  Ext : Type;
  later_step : Step -> Builder -> Ext -> Ext * result unit
}.

(** [DocstringImprover], as the builder sees it: two calls that may raise
    and that change the improver (the loaded model, the cached
    configuration). *)
Class DocstringImprover : Type := {
  Model : Type;
  (** [improve_function_docstring(function_name, current_docstring,
      signature)] *)
  improve_function_docstring :
    string -> string -> string -> Model -> Model * result string;
  (** [generate_test_prompts(function_name, docstring, signature)] *)
  generate_test_prompts :
    string -> string -> string -> Model -> Model * result (list string)
}.

Module GradioMCPBuilder.

Import PyStr.

(** [constant.split("=")[0].strip()] *)
Definition const_name (constant : string) : string :=
  strip (default "" (head (split "=" constant))).

(** One round of the loop over [result["module_constants"]]: the
    dictionary [seen_constants] and the list [self.module_constants]. *)
Definition add_constant (acc : gmap string string * list string)
    (constant : string) : gmap string string * list string :=
  let '(seen_constants, constants) := acc in
  if contains "=" constant then
    match seen_constants !! const_name constant with
    | None => (<[const_name constant := constant]> seen_constants,
               constants ++ [constant])
    | Some _ => acc
    end
  else acc.

Section Build.

Context {I : Interpreter} {S : Surroundings}.

(** The state of a run: the builder, its surroundings, and the steps
    entered so far. *)
Record Run : Type := {
  builder : Builder;
  ext : Ext;
  trace : list Step
}.

Definition M (A : Type) : Type := Run -> Run * result A.

Definition mret {A} (a : A) : M A := fun r => (r, Ok a).

Definition mbind {A B} (m : M A) (k : A -> M B) : M B :=
  fun r =>
    match m r with
    | (r', Ok a) => k a r'
    | (r', Raise e) => (r', Raise e)
    end.

Definition mseq {A B} (m : M A) (k : M B) : M B := mbind m (fun _ => k).

Definition mraise {A} (e : exn) : M A := fun r => (r, Raise e).

#[local] Notation "m >> k" := (mseq m k)
  (at level 65, right associativity, only parsing).

(** Entering a step. *)
Definition enter (s : Step) : M unit :=
  fun r =>
    ({| builder := builder r; ext := ext r; trace := trace r ++ [s] |},
     Ok tt).

Definition set_builder (b : Builder) : M unit :=
  fun r => ({| builder := b; ext := ext r; trace := trace r |}, Ok tt).

Definition get_builder : M Builder := fun r => (r, Ok (builder r)).

(** The body of the loop over the input files, for one file. *)
Definition parse_one (seen_constants : gmap string string)
    (input_file : Path) : M (gmap string string) :=
  mbind get_builder (fun b =>
  match MCPParser.parse_file input_file with
  | Raise e => mraise e
  | Ok res =>
      let '(seen', constants') :=
        fold_left add_constant (module_constants res)
                  (seen_constants, b_module_constants b) in
      set_builder
        {| b_mcp_functions := b_mcp_functions b ++ mcp_functions res;
           b_helper_functions :=
             b_helper_functions b ++ helper_functions res;
           b_module_constants := constants' |} >>
      mret seen'
  end).

Fixpoint parse_loop (input_files : list Path)
    (seen_constants : gmap string string) : M unit :=
  match input_files with
  | [] => mret tt
  | input_file :: rest =>
      mbind (parse_one seen_constants input_file) (parse_loop rest)
  end.

Definition _parse_input_files (input_files : list Path) : M unit :=
  parse_loop input_files ∅ >>
  mbind get_builder (fun b =>
    match b_mcp_functions b with
    | [] => mraise (ValueError "No MCP functions found in input files")
    | _ => mret tt
    end).

(** A step whose body is not part of the parsing stage. *)
Definition later (s : Step) : M unit :=
  fun r =>
    let '(x, res) := later_step s (builder r) (ext r) in
    ({| builder := builder r; ext := x; trace := trace r |}, res).

Definition build (input_files : list Path) : M unit :=
  enter ParseInputFiles >> _parse_input_files input_files >>
  enter ImproveDocstrings >> later ImproveDocstrings >>
  enter GenerateTestPrompts >> later GenerateTestPrompts >>
  enter CreateOutputDirectories >> later CreateOutputDirectories >>
  enter GenerateServerFiles >> later GenerateServerFiles >>
  enter GenerateClientFiles >> later GenerateClientFiles >>
  enter GenerateDocumentation >> later GenerateDocumentation >>
  enter GenerateRequirements >> later GenerateRequirements >>
  enter GenerateConfigFile >> later GenerateConfigFile.

End Build.

Section Tables.

Context {D : DocstringImprover}.

(** One round of the loop of [_improve_docstrings] that calls the
    improver: the improver and [self.improved_docstrings]. *)
Definition improve_one (acc : Model * gmap string string)
    (func : MCPFunction) : Model * gmap string string :=
  let '(m, improved_docstrings) := acc in
  match improve_function_docstring (name func) (docstring func)
                                   (signature func) m with
  | (m', Ok improved) => (m', <[name func := improved]> improved_docstrings)
  | (m', Raise _) => (m', <[name func := docstring func]> improved_docstrings)
  end.

(** One round of the loop that keeps the docstrings as they are. *)
Definition preserve_one (improved_docstrings : gmap string string)
    (func : MCPFunction) : gmap string string :=
  <[name func := docstring func]> improved_docstrings.

(** [_improve_docstrings], on [self.config.preserve_docstrings] and
    [self.mcp_functions]. *)
Definition _improve_docstrings (preserve_docstrings : bool)
    (mcp_functions : list MCPFunction) (acc : Model * gmap string string)
  : Model * gmap string string :=
  if preserve_docstrings
  then (acc.1, fold_left preserve_one mcp_functions acc.2)
  else fold_left improve_one mcp_functions acc.

(** One round of the loop of [_generate_test_prompts]: the improver and
    [self.test_prompts]. Reading [self.improved_docstrings[func.name]] of
    a missing name raises [KeyError] inside the [try]. *)
Definition prompts_one (improved_docstrings : gmap string string)
    (acc : Model * gmap string (list string)) (func : MCPFunction)
  : Model * gmap string (list string) :=
  let '(m, test_prompts) := acc in
  match improved_docstrings !! name func with
  | None => (m, <[name func := []]> test_prompts)
  | Some doc =>
      match generate_test_prompts (name func) doc (signature func) m with
      | (m', Ok prompts) => (m', <[name func := prompts]> test_prompts)
      | (m', Raise _) => (m', <[name func := []]> test_prompts)
      end
  end.

Definition _generate_test_prompts (improved_docstrings : gmap string string)
    (mcp_functions : list MCPFunction)
    (acc : Model * gmap string (list string))
  : Model * gmap string (list string) :=
  fold_left (prompts_one improved_docstrings) mcp_functions acc.

End Tables.

End GradioMCPBuilder.

(** ** [GradioGenerator]: reading a signature back *)

Module GradioGenerator.

Import PyStr.

(** The body of the loop of [_extract_params_from_signature] for one piece
    of the parameter part. *)
Definition param_of (param : string) : result (string * string) :=
  let param := strip param in
  if contains ":" param then
    match split_once ":" param with
    | [name; type_str] => Ok (strip name, strip type_str)
    | _ => Raise (ValueError "not enough values to unpack")
    end
  else Ok (param, "str").

Definition _extract_params_from_signature (signature : string)
  : result (list (string * string)) :=
  if negb (startswith "(" signature) then Ok []
  else
    let param_part :=
      from_second (default "" (head (split ")" signature))) in
    if truthy (strip param_part)
    then rmap param_of (split "," param_part)
    else Ok [].

End GradioGenerator.

(** ** The command line: [main] *)

(** What [main] asks of the file system and of the constructors of
    [Config] and [GradioMCPBuilder]. *)
Class CommandLine {I : Interpreter} {S : Surroundings} : Type := {
  (** [input_file.exists()] *)
  path_exists : Path -> result bool;
  (** [input_file.suffix] *)
  path_suffix : Path -> string;
  (** [Config(...)] followed by [GradioMCPBuilder(config)] *)
  make_builder : list Path -> Ext -> Ext * result unit
}.

Module Cli.

Section Main.

Context {I : Interpreter} {S : Surroundings} {C : CommandLine}.

(** The loop that validates the input files: [Ok false] when it returns
    the exit code 1. *)
Fixpoint validate (input_files : list Path) : result bool :=
  match input_files with
  | [] => Ok true
  | input_file :: rest =>
      there <- path_exists input_file ;;
      if negb there then Ok false
      else if negb (String.eqb (path_suffix input_file) ".py") then Ok false
      else validate rest
  end.

Definition start (x : Ext) : GradioMCPBuilder.Run :=
  {| GradioMCPBuilder.builder := new_builder;
     GradioMCPBuilder.ext := x;
     GradioMCPBuilder.trace := [] |}.

(** The [try] block of [main] with its handlers; the result is the exit
    code. *)
Definition main (input_files : list Path) (x : Ext)
  : GradioMCPBuilder.Run * nat :=
  match validate input_files with
  | Raise _ => (start x, 1)
  | Ok false => (start x, 1)
  | Ok true =>
      match make_builder input_files x with
      | (x', Raise _) => (start x', 1)
      | (x', Ok _) =>
          match GradioMCPBuilder.build input_files (start x') with
          | (r, Ok _) => (r, 0)
          | (r, Raise _) => (r, 1)
          end
      end
  end.

End Main.

End Cli.

(** ** Worked inputs

    Source texts with the trees [ast.parse] builds for them, and instances
    of the interpreter's functions to run the parser on them. *)

Module Fixture.

Import PyStr.

(** [ast.unparse] on names, dotted names and literals given by their
    source text, which is all the worked inputs use; this instance raises
    on every other expression. *)
Fixpoint unparse_names (e : expr) : result string :=
  match e with
  | Name id => Ok id
  | Attribute v a => s <- unparse_names v ;; Ok (s +:+ "." +:+ a)
  | Constant r => Ok r
  | _ => Raise (OtherError "expression outside the worked inputs")
  end.

(** A text from its lines. *)
Definition text (ls : list string) : string := join NL ls.

Definition params (l : list ast_arg) : arguments :=
  {| posonlyargs := []; args := l; vararg := None;
     kwonlyargs := []; kwarg := None |}.

Definition plain (n : string) : ast_arg :=
  {| arg := n; annotation := None |}.

Definition typed (n t : string) : ast_arg :=
  {| arg := n; annotation := Some (Name t) |}.

(** The decorator [@mcp.tool()] *)
Definition mcp_tool : expr := Call (Attribute (Name "mcp") "tool") [].

Definition tree (nodes : list stmt) : ModuleAst :=
  {| body := nodes; mod_docstring := None |}.

(** A decorator, a blank line, then the definition. *)
Definition blank_gap_text : string :=
  text ["@mcp.tool()";
        "";
        "def f():";
        "    pass";
        ""].

Definition blank_gap_f : FunctionDef :=
  {| fd_name := "f";
     fd_args := params [];
     fd_decorator_list := [mcp_tool];
     fd_returns := None;
     fd_lineno := 3;
     fd_docstring := None |}.

(** A function followed by a top-level assignment. *)
Definition trailing_assignment_text : string :=
  text ["def f():";
        "    return 1";
        "X = 1";
        ""].

Definition trailing_assignment_f : FunctionDef :=
  {| fd_name := "f";
     fd_args := params [];
     fd_decorator_list := [];
     fd_returns := None;
     fd_lineno := 1;
     fd_docstring := None |}.

(** A marked function under two decorator lines. *)
Definition two_decorators_text : string :=
  text ["@a";
        "@mcp.tool()";
        "def f():";
        "    pass";
        ""].

Definition two_decorators_f : FunctionDef :=
  {| fd_name := "f";
     fd_args := params [];
     fd_decorator_list := [Name "a"; mcp_tool];
     fd_returns := None;
     fd_lineno := 3;
     fd_docstring := None |}.

Definition two_decorators_tree : ModuleAst :=
  tree [FunctionDefStmt two_decorators_f].

(** A tree out of step with its text: the first definition is said to
    start at a line the text does not have. *)
Definition out_of_step_text : string :=
  text ["def ok():";
        "    pass";
        ""].

Definition out_of_step_bad : FunctionDef :=
  {| fd_name := "bad";
     fd_args := params [];
     fd_decorator_list := [];
     fd_returns := None;
     fd_lineno := 9;
     fd_docstring := None |}.

Definition out_of_step_ok : FunctionDef :=
  {| fd_name := "ok";
     fd_args := params [];
     fd_decorator_list := [];
     fd_returns := None;
     fd_lineno := 1;
     fd_docstring := None |}.

Definition out_of_step_tree : ModuleAst :=
  tree [FunctionDefStmt out_of_step_bad; FunctionDefStmt out_of_step_ok].

(** Aliased imports and a relative import without a module name. *)
Definition aliases_text : string :=
  text ["import a as b";
        "from M import A as B";
        "from . import x";
        ""].

Definition import_a_as_b : stmt :=
  Import [{| alias_name := "a"; asname := Some "b" |}].

Definition from_M_import_A_as_B : stmt :=
  ImportFrom (Some "M") [{| alias_name := "A"; asname := Some "B" |}] 0.

Definition from_dot_import_x : stmt :=
  ImportFrom None [{| alias_name := "x"; asname := None |}] 1.

Definition aliases_tree : ModuleAst :=
  tree [import_a_as_b; from_M_import_A_as_B; from_dot_import_x].

(** An annotated assignment and a plain one. *)
Definition annotated_text : string :=
  text ["X: int = 1";
        "Y = 2";
        ""].

Definition annotated_tree : ModuleAst :=
  tree [AnnAssign (Name "X") (Name "int") true 1;
        Assign [Name "Y"] 2].

(** A class with one marked method. *)
Definition method_text : string :=
  text ["class C:";
        "    @mcp.tool()";
        "    def m(self, x: str):";
        "        pass";
        ""].

Definition method_m : FunctionDef :=
  {| fd_name := "m";
     fd_args := params [plain "self"; typed "x" "str"];
     fd_decorator_list := [mcp_tool];
     fd_returns := None;
     fd_lineno := 3;
     fd_docstring := None |}.

Definition method_tree : ModuleAst :=
  tree [ClassDef "C" [FunctionDefStmt method_m] 1].

(** [def f(a: int, *args, key: str, **kwargs):] *)
Definition variadic_f : FunctionDef :=
  {| fd_name := "f";
     fd_args :=
       {| posonlyargs := [];
          args := [typed "a" "int"];
          vararg := Some (plain "args");
          kwonlyargs := [typed "key" "str"];
          kwarg := Some (plain "kwargs") |};
     fd_decorator_list := [];
     fd_returns := None;
     fd_lineno := 1;
     fd_docstring := None |}.

(** Three files on a disk: one with a constant and a marked function, one
    with the same constant again, one with a helper only. *)
Definition one_text : string :=
  text ["X = 1";
        "@mcp.tool()";
        "def f():";
        "    pass";
        ""].

Definition one_f : FunctionDef :=
  {| fd_name := "f";
     fd_args := params [];
     fd_decorator_list := [mcp_tool];
     fd_returns := None;
     fd_lineno := 3;
     fd_docstring := None |}.

Definition one_tree : ModuleAst :=
  tree [Assign [Name "X"] 1; FunctionDefStmt one_f].

Definition two_text : string := text ["X = 2"; ""].

Definition two_tree : ModuleAst := tree [Assign [Name "X"] 1].

Definition helpers_text : string :=
  text ["def helper():";
        "    pass";
        ""].

Definition helpers_helper : FunctionDef :=
  {| fd_name := "helper";
     fd_args := params [];
     fd_decorator_list := [];
     fd_returns := None;
     fd_lineno := 1;
     fd_docstring := None |}.

Definition helpers_tree : ModuleAst := tree [FunctionDefStmt helpers_helper].

(** Two more files: one whose first statement binds two names at once,
    followed by a marked function, and one that binds the second of these
    names again. *)
Definition chain_text : string :=
  text ["Y = X = 2";
        "@mcp.tool()";
        "def f():";
        "    pass";
        ""].

Definition chain_tree : ModuleAst :=
  tree [Assign [Name "Y"; Name "X"] 1; FunctionDefStmt one_f].

Definition five_text : string := text ["X = 5"; ""].

Definition five_tree : ModuleAst := tree [Assign [Name "X"] 1].

Definition disk : list (string * (string * ModuleAst)) :=
  [("one.py", (one_text, one_tree));
   ("two.py", (two_text, two_tree));
   ("helpers.py", (helpers_text, helpers_tree));
   ("chain.py", (chain_text, chain_tree));
   ("five.py", (five_text, five_tree))].

(** Reading a file of the disk. *)
Definition disk_read (file_path : string) : result string :=
  match find (fun e => String.eqb e.1 file_path) disk with
  | Some e => Ok e.2.1
  | None => Raise OSError
  end.

(** [ast.parse] on the texts of the disk. *)
Definition disk_parse (t : string) : result ModuleAst :=
  match find (fun e => String.eqb e.2.1 t) disk with
  | Some e => Ok e.2.2
  | None => Raise SyntaxError
  end.

(** The interpreter of the worked inputs. *)
Definition python : Interpreter :=
  {| unparse := unparse_names;
     Path := string;
     read_text := disk_read;
     ast_parse := disk_parse |}.

(** Later steps that succeed and leave their name behind. *)
Definition record_step (s : Step) (b : Builder) (done : list Step)
  : list Step * result unit :=
  (done ++ [s], Ok tt).

Definition recorder : Surroundings :=
  {| Ext := list Step; later_step := record_step |}.

Definition fresh_run : GradioMCPBuilder.Run (S := recorder) :=
  {| GradioMCPBuilder.builder := new_builder;
     GradioMCPBuilder.ext := [] : Ext (Surroundings := recorder);
     GradioMCPBuilder.trace := [] |}.

(** The command line over the disk: a file is there when the disk has
    it, the paths of the worked inputs that end in [.py] have that suffix
    and [notes.txt] has the suffix [.txt]; creating the configuration and
    the builder succeeds and changes nothing. *)
Definition disk_exists (file_path : string) : result bool :=
  Ok (existsb (fun e => String.eqb e.1 file_path) disk).

Definition disk_suffix (file_path : string) : string :=
  if existsb (String.eqb file_path)
             ["one.py"; "two.py"; "helpers.py"; "missing.py"]
  then ".py"
  else if String.eqb file_path "notes.txt" then ".txt" else "".

Definition quiet_constructors (files : list string) (x : list Step)
  : list Step * result unit :=
  (x, Ok tt).

Definition shell : CommandLine (I := python) (S := recorder) :=
  {| path_exists := disk_exists : Path (Interpreter := python) -> result bool;
     path_suffix := disk_suffix : Path (Interpreter := python) -> string;
     make_builder :=
       quiet_constructors
       : list (Path (Interpreter := python))
         -> Ext (Surroundings := recorder)
         -> Ext (Surroundings := recorder) * result unit |}.

End Fixture.

(** ** Vocabulary of the statements *)

Module Spec.

Import PyStr.

Section Signature.

Context {I : Interpreter}.

(** What one entry of the parameter list looks like: [name], or
    [name: type] with the annotation as [ast.unparse] renders it. *)
Definition rendered (a : ast_arg) (s : string) : Prop :=
  match annotation a with
  | None => s = arg a
  | Some t => exists ty, unparse t = Ok ty /\ s = arg a +:+ ": " +:+ ty
  end.

(** The text after the closing parenthesis. *)
Definition return_suffix (node : FunctionDef) (suffix : string) : Prop :=
  match fd_returns node with
  | None => suffix = ""
  | Some r => exists ty, unparse r = Ok ty /\ suffix = " -> " +:+ ty
  end.

End Signature.

(** [node] with other positional-only, variadic and keyword-only
    parameters, and the same regular parameters. *)
Definition with_special_params (node : FunctionDef)
    (po : list ast_arg) (va : option ast_arg)
    (ko : list ast_arg) (kw : option ast_arg) : FunctionDef :=
  {| fd_name := fd_name node;
     fd_args := {| posonlyargs := po; args := args (fd_args node);
                   vararg := va; kwonlyargs := ko; kwarg := kw |};
     fd_decorator_list := fd_decorator_list node;
     fd_returns := fd_returns node;
     fd_lineno := fd_lineno node;
     fd_docstring := fd_docstring node |}.

(** A line whose stripped text starts with the decorator marker. *)
Definition is_decorator_line (l : string) : bool :=
  startswith "@" (strip l).

(** A line that is neither blank, nor a comment, nor a decorator. *)
Definition is_code_line (l : string) : bool :=
  negb (startswith "@" (strip l))
  && (truthy (strip l) && negb (startswith "#" (strip l))).

(** A line whose stripped text is empty. *)
Definition is_blank_line (l : string) : bool := negb (truthy (strip l)).

(** A line whose stripped text starts with [def ], [class ] or the
    decorator marker. *)
Definition starts_definition (l : string) : bool :=
  startswith "def " (strip l) || startswith "class " (strip l)
  || startswith "@" (strip l).

(** The lines of a text and the 0-based index of a node's [def] line. *)
Definition lines_of (text : string) : list string := split nl text.

Definition def_index (node : FunctionDef) : nat :=
  Pos.to_nat (fd_lineno node) - 1.


(** The function definitions the parser visits, in the order of the
    visit: the top-level ones, and the ones directly in the body of a
    top-level class, marked [true]. *)
Definition methods_of (cbody : list stmt) : list (bool * FunctionDef) :=
  omap (fun c => match c with
                 | FunctionDefStmt fd => Some (true, fd)
                 | _ => None
                 end) cbody.

Definition functions_of_node (n : stmt) : list (bool * FunctionDef) :=
  match n with
  | FunctionDefStmt fd => [(false, fd)]
  | ClassDef _ cbody _ => methods_of cbody
  | _ => []
  end.

Definition function_nodes (nodes : list stmt) : list (bool * FunctionDef) :=
  flat_map functions_of_node nodes.

(** The simple-name targets of the top-level plain assignments, each
    with the line of its statement. *)
Definition name_targets (targets : list expr) (lineno : positive)
  : list (string * positive) :=
  omap (fun t => match t with
                 | Name id => Some (id, lineno)
                 | _ => None
                 end) targets.

Definition targets_of_node (n : stmt) : list (string * positive) :=
  match n with
  | Assign targets lineno => name_targets targets lineno
  | _ => []
  end.

Definition constant_targets (nodes : list stmt)
  : list (string * positive) :=
  flat_map targets_of_node nodes.

Section Entities.

Context {I : Interpreter}.
Variable text : string.
Variable imports : list string.

(** The record of one visited definition, when building it succeeds
    and its marking is [marked]. *)
Definition entity_of (marked : bool) (n : bool * FunctionDef)
  : option MCPFunction :=
  if Bool.eqb (MCPParser.has_mcp_decorator n.2) marked then
    match MCPParser.make_function text imports n.2 with
    | Ok f => Some f
    | Raise _ => None
    end
  else None.

(** The warning for one visited definition, when building it fails. *)
Definition warning_of (n : bool * FunctionDef) : option warning :=
  match MCPParser.make_function text imports n.2 with
  | Ok _ => None
  | Raise e =>
      Some ((match n.1, MCPParser.has_mcp_decorator n.2 with
             | false, true => FailedMcpFunction
             | false, false => FailedHelperFunction
             | true, true => FailedMcpClassMethod
             | true, false => FailedHelperClassMethod
             end) (fd_name n.2) e)
  end.

(** The constant of one assignment target, when extracting it succeeds
    and keeps a text. *)
Definition constant_of (t : string * positive) : option string :=
  match MCPParser.extract_constant text t.2 with
  | Ok (Some c) => Some c
  | _ => None
  end.



(** The warning for one assignment target, when extracting it fails. *)
Definition constant_warning_of (t : string * positive) : option warning :=
  match MCPParser.extract_constant text t.2 with
  | Raise e => Some (FailedConstant t.1 e)
  | _ => None
  end.

(** The accumulators of the function loop after the visit of [l]. *)
Definition record_all (st : MCPParser.FState) (l : list (bool * FunctionDef))
  : MCPParser.FState :=
  {| MCPParser.fs_mcp := MCPParser.fs_mcp st ++ omap (entity_of true) l;
     MCPParser.fs_helpers :=
       MCPParser.fs_helpers st ++ omap (entity_of false) l;
     MCPParser.fs_warnings := MCPParser.fs_warnings st ++ omap warning_of l
  |}.

(** The accumulators of the constant loop after the targets [l]. *)
Definition keep_all (st : MCPParser.CState) (l : list (string * positive))
  : MCPParser.CState :=
  {| MCPParser.cs_constants := MCPParser.cs_constants st ++ omap constant_of l;
     MCPParser.cs_warnings :=
       MCPParser.cs_warnings st ++ omap constant_warning_of l |}.

End Entities.

(** [c] is the first constant of [cs] that the builder reads under its
    name. *)
Definition first_seen (cs : list string) (c : string) : Prop :=
  exists l1 l2,
    cs = l1 ++ c :: l2
    /\ forall c', In c' l1 -> contains "=" c' = true ->
                  GradioMCPBuilder.const_name c'
                  <> GradioMCPBuilder.const_name c.




(** A top-level statement that holds no plain function definition, neither
    itself nor directly in the body of a class. *)
Definition defines_nothing (n : stmt) : bool :=
  match n with
  | FunctionDefStmt _ => false
  | ClassDef _ cbody _ =>
      forallb (fun c => match c with
                        | FunctionDefStmt _ => false
                        | _ => true
                        end) cbody
  | _ => true
  end.

(** The text between the first character of a signature and its first
    closing parenthesis. *)
Definition param_part (signature : string) : string :=
  from_second (default "" (head (split ")" signature))).

(** What the interface generator reads from one piece between commas:
    the stripped piece with the type [str] when it holds no colon, else
    the texts before and after its first colon, both stripped. *)
Definition read_as (piece : string) (p : string * string) : Prop :=
  (contains ":" (strip piece) = false /\ p = (strip piece, "str"))
  \/ exists a b,
       strip piece = a +:+ ":" +:+ b
       /\ contains ":" a = false
       /\ p = (strip a, strip b).

(** The test that ends the span of a constant, in the words of the
    statements. *)
Definition starts_statement (l : string) : bool :=
  starts_definition l
  || (contains "=" l && negb (startswith "#" (strip l))).


(** The top-level statements that are neither imports, nor plain
    assignments, nor function definitions, nor classes. *)
Definition ignored_at_top (n : stmt) : bool :=
  match n with
  | AnnAssign _ _ _ _ | AugAssign _ _ | AsyncFunctionDefStmt _
  | OtherStmt _ => true
  | _ => false
  end.

(** A plain (not [async]) function definition. *)
Definition is_function_def (n : stmt) : bool :=
  match n with
  | FunctionDefStmt _ => true
  | _ => false
  end.

(** A parameter name the interface generator reads back as written: not
    empty, without white space around it, without comma, closing
    parenthesis or colon. *)
Definition plain_name (s : string) : Prop :=
  s <> "" /\ strip s = s /\ contains "," s = false
  /\ contains ")" s = false /\ contains ":" s = false.

(** A rendered type the interface generator reads back as written: not
    empty, without white space around it, without comma or closing
    parenthesis. *)
Definition plain_type (s : string) : Prop :=
  s <> "" /\ strip s = s /\ contains "," s = false
  /\ contains ")" s = false.

Section Parameters.

Context {I : Interpreter}.

(** A parameter whose name and rendered annotation are plain. *)
Definition plain_param (a : ast_arg) : Prop :=
  plain_name (arg a)
  /\ match annotation a with
     | None => True
     | Some t => exists ty, unparse t = Ok ty /\ plain_type ty
     end.

(** The pair the interface generator should find for a parameter: its
    name, and its rendered annotation or [str]. *)
Definition read_back (a : ast_arg) (p : string * string) : Prop :=
  p.1 = arg a
  /\ match annotation a with
     | None => p.2 = "str"
     | Some t => unparse t = Ok p.2
     end.

End Parameters.

(** The steps of a build that ran to its end. *)
Definition all_steps : list Step :=
  [ParseInputFiles; ImproveDocstrings; GenerateTestPrompts;
   CreateOutputDirectories; GenerateServerFiles; GenerateClientFiles;
   GenerateDocumentation; GenerateRequirements; GenerateConfigFile].

(** No [ImportFrom] node of the tree has an empty list of names; the
    grammar of the language allows none. *)
Definition named_import (n : stmt) : Prop :=
  match n with
  | ImportFrom _ [] _ => False
  | _ => True
  end.

End Spec.

(** * Properties *)

Import PyStr Spec.

(** ** Signature synthesis *)

Section SignatureFacts.

Context {I : Interpreter}.

Lemma arg_str_rendered a s :
  MCPParser.arg_str a = Ok s -> rendered a s.
Proof.
  unfold MCPParser.arg_str, rendered.
  destruct (annotation a) as [t|]; [|congruence].
  destruct (unparse t) as [ty|e] eqn:Ht; simpl; [|discriminate].
  intros [= <-]. eauto.
Qed.

Lemma rmap_arg_str_rendered l strs :
  rmap (MCPParser.arg_str) l = Ok strs -> Forall2 (rendered) l strs.
Proof.
  revert strs. induction l as [|a l IH]; intros strs; simpl.
  - intros [= <-]. constructor.
  - destruct (MCPParser.arg_str a) as [s|e] eqn:Ha; simpl;
      [|discriminate].
    destruct (rmap (MCPParser.arg_str) l) as [ss|e] eqn:Hl; simpl;
      [|discriminate].
    intros [= <-]. constructor.
    + apply arg_str_rendered, Ha.
    + apply IH; reflexivity.
Qed.

Lemma string_app_cons (c : ascii) (a b : string) :
  String c a +:+ b = String c (a +:+ b).
Proof. reflexivity. Qed.

Lemma string_app_assoc (a b c : string) : (a +:+ b) +:+ c = a +:+ (b +:+ c).
Proof.
  induction a as [|x a IH]; [reflexivity|].
  now rewrite !string_app_cons, IH.
Qed.

Lemma signature_shape node sig :
  MCPParser._build_signature_string node = Ok sig ->
  exists strs suffix,
    rmap (MCPParser.arg_str) (args (fd_args node)) = Ok strs
    /\ return_suffix node suffix
    /\ sig = "(" +:+ join ", " strs +:+ ")" +:+ suffix.
Proof.
  unfold MCPParser._build_signature_string, return_suffix.
  destruct (rmap _ (args (fd_args node))) as [strs|e]; simpl; [|discriminate].
  destruct (fd_returns node) as [r|].
  - destruct (unparse r) as [ty|e]; simpl; [|discriminate].
    intros [= <-]. exists strs, (" -> " +:+ ty). split; [reflexivity|].
    split; [eauto|]. now rewrite !string_app_assoc.
  - intros [= <-]. exists strs, "". split; [reflexivity|].
    split; [reflexivity|]. reflexivity.
Qed.

End SignatureFacts.

(** C1 as stated fails on the class of Scenario C: the parser does not
    return one entry point [m] with the signature [(x: str)]. *)
Lemma C1_self_dropped_counterexample :
  ~ (exists r f,
        MCPParser.parse_tree (I := Fixture.python) Fixture.method_text
                             Fixture.method_tree = Ok r
        /\ mcp_functions r = [f] /\ name f = "m"
        /\ signature f = "(x: str)").
Proof.
  intros (r & f & Hr & Hf & _ & Hsig).
  vm_compute in Hr. injection Hr as <-. simpl in Hf.
  injection Hf as <-. discriminate Hsig.
Qed.

(** C8 as stated fails on [def f(a: int, *args, key: str, **kwargs)]: the
    signature is [(a: int)] and names none of [args], [key], [kwargs]. *)
Lemma C8_variadic_counterexample :
  MCPParser._build_signature_string (I := Fixture.python) Fixture.variadic_f
    = Ok "(a: int)"
  /\ contains "args" "(a: int)" = false
  /\ contains "key" "(a: int)" = false
  /\ contains "kwargs" "(a: int)" = false.
Proof. repeat split; reflexivity. Qed.

(** C8, amended: the signature string lists the regular parameters
    ([node.args.args]) only, in order, each as [name] or [name: <type>];
    positional-only, variadic ([*args], [**kwargs]) and keyword-only
    parameters are left out, so replacing them changes nothing. *)
Theorem C8_signature_lists_regular_parameters
    {I : Interpreter} (node : FunctionDef) (sig : string) :
  MCPParser._build_signature_string node = Ok sig ->
  (exists strs suffix,
      Forall2 (rendered) (args (fd_args node)) strs
      /\ return_suffix node suffix
      /\ sig = "(" +:+ join ", " strs +:+ ")" +:+ suffix)
  /\ (forall po va ko kw,
         MCPParser._build_signature_string
           (with_special_params node po va ko kw) = Ok sig).
Proof.
  intros Hsig. split.
  - destruct (signature_shape node sig Hsig)
      as (strs & suffix & Hstrs & Hret & ->).
    exists strs, suffix. split; [|split]; auto using rmap_arg_str_rendered.
  - intros po va ko kw. rewrite <- Hsig. reflexivity.
Qed.

(** The amended C8 at [def f(a: int, *args, key: str, **kwargs)]: the
    signature is that of [def f(a: int)]. *)
Lemma C8_signature_lists_regular_parameters_witness :
  MCPParser._build_signature_string (I := Fixture.python) Fixture.variadic_f
    = Ok "(a: int)"
  /\ MCPParser._build_signature_string (I := Fixture.python)
       (with_special_params Fixture.variadic_f [] None [] None)
     = Ok "(a: int)".
Proof.
  split; [reflexivity|].
  exact (proj2 (C8_signature_lists_regular_parameters (I := Fixture.python)
                  Fixture.variadic_f "(a: int)" eq_refl) [] None [] None).
Defined.

(** ** Span recovery: the forward scan for the end of a span *)

Lemma scan_end_spec (boundary : string -> bool) (rest : list string)
    (i d : nat) :
  i + length rest <= d ->
  let e := MCPParser.scan_end boundary rest i d in
  i <= e
  /\ (e = d \/ (e < i + length rest
               /\ exists l, rest !! (e - i) = Some l /\ boundary l = true))
  /\ (forall k l, k < e - i -> rest !! k = Some l -> boundary l = false).
Proof.
  revert i. induction rest as [|line rest IH]; intros i Hd; simpl in *.
  - split; [lia|]. split; [left; reflexivity|].
    intros k l _ Hl. rewrite lookup_nil in Hl. discriminate.
  - destruct (boundary line) eqn:Hb.
    + split; [lia|]. split.
      * right. split; [lia|]. exists line. rewrite Nat.sub_diag. auto.
      * intros k l Hk. lia.
    + destruct (IH (S i) ltac:(lia)) as (Hle & Hwhere & Hbefore).
      set (e := MCPParser.scan_end boundary rest (S i) d) in *.
      split; [lia|]. split.
      * destruct Hwhere as [->|(Hlt & l & Hl & Hbl)]; [left; reflexivity|].
        right. split; [lia|]. exists l. split; [|exact Hbl].
        replace (e - i) with (S (e - S i)) by lia. exact Hl.
      * intros [|k] l Hk Hl.
        -- injection Hl as <-. exact Hb.
        -- apply (Hbefore k l); [lia | exact Hl].
Qed.

Lemma scan_end_lines (boundary : string -> bool) (lines : list string)
    (i : nat) :
  i <= length lines ->
  let e := MCPParser.scan_end boundary (drop i lines) i (length lines) in
  i <= e <= length lines
  /\ (e < length lines ->
      exists l, lines !! e = Some l /\ boundary l = true)
  /\ (forall k l, i <= k < e -> lines !! k = Some l -> boundary l = false).
Proof.
  intros Hi.
  pose proof (scan_end_spec boundary (drop i lines) i (length lines)) as H.
  rewrite length_drop in H. specialize (H ltac:(lia)).
  cbv zeta in *.
  set (e := MCPParser.scan_end boundary (drop i lines) i (length lines)) in *.
  destruct H as (Hle & Hwhere & Hbefore).
  split; [|split].
  - destruct Hwhere as [->|[Hlt _]]; lia.
  - intros Hlt. destruct Hwhere as [->|(_ & l & Hl & Hbl)]; [lia|].
    exists l. split; [|exact Hbl].
    rewrite lookup_drop in Hl. replace (i + (e - i)) with e in Hl by lia.
    exact Hl.
  - intros k l Hk Hl. apply (Hbefore (k - i) l); [lia|].
    rewrite lookup_drop. replace (i + (k - i)) with k by lia. exact Hl.
Qed.

(** ** Span recovery: the backward scan for decorators *)

Lemma scan_decorators_spec (lines : list string) (n start : nat) :
  n <= length lines -> n <= start ->
  exists s,
    MCPParser.scan_decorators lines n start = Ok s
    /\ (s = start \/ (s < n /\ exists l, lines !! s = Some l
                                  /\ is_decorator_line l = true))
    /\ (forall j l, j < n -> lines !! j = Some l ->
          is_decorator_line l = true ->
          (forall k l', j < k < n -> lines !! k = Some l' ->
                        is_code_line l' = false) ->
          s <= j)
    /\ (forall k l, k < n -> lines !! k = Some l ->
          is_code_line l = true -> k < s).
Proof.
  revert start. induction n as [|i IH]; intros start Hlen Hstart.
  - exists start. simpl. repeat split; auto; intros; lia.
  - destruct (lookup_lt_is_Some_2 lines i ltac:(lia)) as [l Hl].
    simpl. rewrite Hl.
    destruct (startswith "@" (strip l)) eqn:Hdec.
    + destruct (IH i ltac:(lia) ltac:(lia)) as (s & Hs & Hwhere & Hinc & Hstop).
      exists s. split; [exact Hs|]. split; [|split].
      * right. destruct Hwhere as [->|[Hlt Hd]].
        -- split; [lia|]. exists l. split; [exact Hl | exact Hdec].
        -- split; [lia | exact Hd].
      * intros j l0 Hj Hl0 Hd0 Hbetween.
        destruct (decide (j = i)) as [->|Hne].
        -- destruct Hwhere as [->|[Hlt _]]; lia.
        -- apply (Hinc j l0); [lia | exact Hl0 | exact Hd0 |].
           intros k l' Hk. apply Hbetween. lia.
      * intros k l0 Hk Hl0 Hcode.
        destruct (decide (k = i)) as [->|Hne].
        -- rewrite Hl in Hl0. injection Hl0 as <-.
           unfold is_code_line in Hcode. rewrite Hdec in Hcode. discriminate.
        -- apply (Hstop k l0); [lia | exact Hl0 | exact Hcode].
    + destruct (truthy (strip l) && negb (startswith "#" (strip l))) eqn:Hcode.
      * exists start. split; [reflexivity|]. split; [left; reflexivity|].
        split.
        -- intros j l0 Hj Hl0 Hd0 Hbetween.
           destruct (decide (j = i)) as [->|Hne].
           ++ rewrite Hl in Hl0. injection Hl0 as <-.
              unfold is_decorator_line in Hd0. congruence.
           ++ specialize (Hbetween i l ltac:(lia) Hl).
              unfold is_code_line in Hbetween.
              rewrite Hdec, Hcode in Hbetween. discriminate.
        -- intros k l0 Hk _ _. lia.
      * destruct (IH start ltac:(lia) ltac:(lia))
          as (s & Hs & Hwhere & Hinc & Hstop).
        exists s. split; [exact Hs|]. split; [|split].
        -- destruct Hwhere as [->|[Hlt Hd]]; [left; reflexivity|].
           right. split; [lia | exact Hd].
        -- intros j l0 Hj Hl0 Hd0 Hbetween.
           destruct (decide (j = i)) as [->|Hne].
           ++ rewrite Hl in Hl0. injection Hl0 as <-.
              unfold is_decorator_line in Hd0. congruence.
           ++ apply (Hinc j l0); [lia | exact Hl0 | exact Hd0 |].
              intros k l' Hk. apply Hbetween. lia.
        -- intros k l0 Hk Hl0 Hc.
           destruct (decide (k = i)) as [->|Hne].
           ++ rewrite Hl in Hl0. injection Hl0 as <-.
              unfold is_code_line in Hc. rewrite Hdec, Hcode in Hc.
              discriminate.
           ++ apply (Hstop k l0); [lia | exact Hl0 | exact Hc].
Qed.

(** C2 as stated fails on a decorator that a blank line separates from the
    definition: the blank line does not stop the scan and the decorator
    line is part of the recovered span. *)
Lemma C2_blank_line_counterexample :
  lines_of Fixture.blank_gap_text !! 1 = Some ""
  /\ MCPParser.scan_decorators (lines_of Fixture.blank_gap_text) 2 2 = Ok 0
  /\ MCPParser._extract_function_source Fixture.blank_gap_text
        Fixture.blank_gap_f
      = Ok (Fixture.text ["@mcp.tool()"; ""; "def f():"; "    pass"; ""]).
Proof. repeat split; reflexivity. Qed.

(** C2, amended: walking upward from the line before the [def] line, blank
    lines and comment lines are skipped and do not stop the scan; it stops
    at the first line that is neither blank, nor a comment, nor a
    decorator. The span starts at the topmost decorator line met before
    that (at the [def] line if there is none), so a decorator line is
    captured whenever only decorator, blank and comment lines lie between
    it and the definition, and no line at or above the stopping line is.
    The span ends after the [def] line. *)
Theorem C2_decorator_scan_skips_blank_lines
    (text : string) (node : FunctionDef) :
  def_index node < length (lines_of text) ->
  exists s src,
    MCPParser.scan_decorators (lines_of text) (def_index node)
                              (def_index node) = Ok s
    /\ MCPParser._extract_function_source text node = Ok src
    /\ (exists e, def_index node < e <= length (lines_of text)
                  /\ src = join NL (slice (lines_of text) s e))
    /\ s <= def_index node
    /\ (s < def_index node ->
        exists l, lines_of text !! s = Some l /\ is_decorator_line l = true)
    /\ (forall j l, j < def_index node -> lines_of text !! j = Some l ->
          is_decorator_line l = true ->
          (forall k l', j < k < def_index node ->
                        lines_of text !! k = Some l' ->
                        is_code_line l' = false) ->
          s <= j)
    /\ (forall k l, k < def_index node -> lines_of text !! k = Some l ->
          is_code_line l = true -> k < s).
Proof.
  intros Hlen.
  destruct (scan_decorators_spec (lines_of text) (def_index node)
              (def_index node) ltac:(lia) ltac:(lia))
    as (s & Hs & Hwhere & Hinc & Hstop).
  destruct (lookup_lt_is_Some_2 _ _ Hlen) as [dl Hdl].
  assert (Hno : Pos.to_nat (fd_lineno node) = S (def_index node))
    by (unfold def_index; lia).
  destruct (scan_end_lines (MCPParser.function_boundary (indent_of dl))
              (lines_of text) (S (def_index node)) ltac:(lia))
    as (Hrange & _).
  exists s. eexists. split; [exact Hs|]. split.
  - unfold MCPParser._extract_function_source.
    fold (lines_of text). fold (def_index node).
    rewrite Hs. simpl. rewrite Hdl, Hno. reflexivity.
  - split; [eexists; split; [|reflexivity]; lia|].
    split; [destruct Hwhere as [->|[? _]]; lia|].
    split; [|split; assumption].
    intros Hlt. destruct Hwhere as [->|[_ Hd]]; [lia | exact Hd].
Qed.

(** The amended C2 at the decorator followed by a blank line: the span
    starts at the decorator, line index 0. *)
Lemma C2_decorator_scan_skips_blank_lines_witness :
  exists s src,
    MCPParser.scan_decorators (lines_of Fixture.blank_gap_text) 2 2 = Ok s
    /\ MCPParser._extract_function_source Fixture.blank_gap_text
          Fixture.blank_gap_f = Ok src
    /\ s <= 0.
Proof.
  destruct (C2_decorator_scan_skips_blank_lines Fixture.blank_gap_text
              Fixture.blank_gap_f ltac:(vm_compute; lia))
    as (s & src & Hs & Hsrc & _ & _ & _ & Hinc & _).
  exists s, src. split; [exact Hs|]. split; [exact Hsrc|].
  apply (Hinc 0 "@mcp.tool()"); [vm_compute; lia | reflexivity | reflexivity |].
  intros k l' Hk Hl'. change (def_index Fixture.blank_gap_f) with 2 in Hk.
  assert (k = 1) as -> by lia.
  vm_compute in Hl'. injection Hl' as <-. reflexivity.
Defined.

(** ** Span recovery: where the span of a function ends *)

(** C3 as stated fails on a function followed by a top-level assignment:
    the line [X = 1] is not indented, is not a comment and holds an
    assignment, yet the span of [f] runs through it to the end of the
    text. *)
Lemma C3_assignment_counterexample :
  lines_of Fixture.trailing_assignment_text !! 2 = Some "X = 1"
  /\ MCPParser.constant_boundary 0 "X = 1" = true
  /\ MCPParser._extract_function_source Fixture.trailing_assignment_text
       Fixture.trailing_assignment_f
     = Ok (Fixture.text ["def f():"; "    return 1"; "X = 1"; ""]).
Proof. repeat split; reflexivity. Qed.

(** C3, amended: the recovered span of a function ends just before the
    first line after the [def] line that is not blank, whose leading white
    space is no wider than that of the [def] line and whose trimmed text
    starts with [def ], [class ] or the decorator marker; when there is no
    such line it ends with the last line. An assignment does not end the
    span of a function. The span starts at the [def] line or before it. *)
Theorem C3_function_span_ends_at_next_definition
    (text : string) (node : FunctionDef) (def_line : string) :
  lines_of text !! def_index node = Some def_line ->
  exists s e,
    MCPParser._extract_function_source text node
      = Ok (join NL (slice (lines_of text) s e))
    /\ s <= def_index node
    /\ S (def_index node) <= e <= length (lines_of text)
    /\ (e < length (lines_of text) ->
        exists l, lines_of text !! e = Some l
                  /\ is_blank_line l = false
                  /\ indent_of l <= indent_of def_line
                  /\ starts_definition l = true)
    /\ (forall k l, S (def_index node) <= k < e ->
          lines_of text !! k = Some l ->
          is_blank_line l = true
          \/ indent_of def_line < indent_of l
          \/ starts_definition l = false).
Proof.
  intros Hdl.
  pose proof (lookup_lt_Some _ _ _ Hdl) as Hlen.
  destruct (scan_decorators_spec (lines_of text) (def_index node)
              (def_index node) ltac:(lia) ltac:(lia))
    as (s & Hs & Hwhere & _).
  assert (Hno : Pos.to_nat (fd_lineno node) = S (def_index node))
    by (unfold def_index; lia).
  destruct (scan_end_lines (MCPParser.function_boundary (indent_of def_line))
              (lines_of text) (S (def_index node)) ltac:(lia))
    as (Hrange & Hat & Hbefore).
  exists s. eexists. split.
  - unfold MCPParser._extract_function_source.
    fold (lines_of text). fold (def_index node).
    rewrite Hs. simpl. rewrite Hdl, Hno. reflexivity.
  - split; [destruct Hwhere as [->|[? _]]; lia|].
    split; [exact Hrange|]. split.
    + intros Hlt. destruct (Hat Hlt) as (l & Hl & Hb).
      exists l. split; [exact Hl|].
      unfold MCPParser.function_boundary in Hb.
      apply andb_true_iff in Hb as [Hne Hb].
      apply andb_true_iff in Hb as [Hind Hb].
      unfold is_blank_line, starts_definition. rewrite Hne.
      apply Nat.leb_le in Hind. auto.
    + intros k l Hk Hl. specialize (Hbefore k l Hk Hl).
      unfold MCPParser.function_boundary in Hbefore.
      unfold is_blank_line, starts_definition.
      destruct (truthy (strip l)); [|left; reflexivity].
      destruct (Nat.leb_spec (indent_of l) (indent_of def_line)) as [Hi|Hi];
        [|right; left; exact Hi].
      right; right. exact Hbefore.
Qed.

(** The amended C3 at the function followed by [X = 1]: the span runs
    through the assignment and ends with the last line of the text. *)
Lemma C3_function_span_ends_at_next_definition_witness :
  exists s e,
    MCPParser._extract_function_source Fixture.trailing_assignment_text
      Fixture.trailing_assignment_f
    = Ok (join NL (slice (lines_of Fixture.trailing_assignment_text) s e))
    /\ e = 4.
Proof.
  destruct (C3_function_span_ends_at_next_definition
              Fixture.trailing_assignment_text Fixture.trailing_assignment_f
              "def f():" eq_refl)
    as (s & e & Hsrc & _ & Hrange & Hat & _).
  exists s, e. split; [exact Hsrc|].
  change (length (lines_of Fixture.trailing_assignment_text)) with 4 in *.
  change (S (def_index Fixture.trailing_assignment_f)) with 1 in Hrange.
  destruct (decide (e = 4)) as [He|He]; [exact He|].
  destruct (Hat ltac:(lia)) as (l & Hl & Hnb & _ & Hdef).
  assert (e = 1 \/ e = 2 \/ e = 3) as [-> | [-> | ->]] by lia;
    vm_compute in Hl; injection Hl as <-; discriminate.
Defined.

(** ** The loops of [parse_file] as maps over the visited nodes *)

Section LoopFacts.

Context {I : Interpreter}.
Variable text : string.
Variable imports : list string.

Lemma record_all_nil st : record_all text imports st [] = st.
Proof. destruct st. unfold record_all. simpl. now rewrite !app_nil_r. Qed.

Lemma record_all_app st l1 l2 :
  record_all text imports (record_all text imports st l1) l2
  = record_all text imports st (l1 ++ l2).
Proof.
  unfold record_all. simpl. now rewrite !omap_app, !app_assoc.
Qed.

Lemma add_function_record in_class st fd :
  MCPParser.add_function text imports in_class st fd
  = record_all text imports st [(in_class, fd)].
Proof.
  unfold MCPParser.add_function, record_all, entity_of, warning_of. simpl.
  destruct (MCPParser.has_mcp_decorator fd),
           (MCPParser.make_function text imports fd), in_class;
    simpl; now rewrite ?app_nil_r.
Qed.

Lemma class_loop_record cbody st :
  fold_left (MCPParser.class_node text imports) cbody st
  = record_all text imports st (methods_of cbody).
Proof.
  revert st. induction cbody as [|c cbody IH]; intros st; simpl.
  - now rewrite record_all_nil.
  - rewrite IH. destruct c; simpl; try reflexivity.
    rewrite add_function_record, record_all_app. reflexivity.
Qed.

Lemma top_node_record st n :
  MCPParser.top_node text imports st n
  = record_all text imports st (functions_of_node n).
Proof.
  destruct n; simpl; try (now rewrite record_all_nil).
  - apply add_function_record.
  - apply class_loop_record.
Qed.

Lemma top_loop_record nodes st :
  fold_left (MCPParser.top_node text imports) nodes st
  = record_all text imports st (function_nodes nodes).
Proof.
  revert st. induction nodes as [|n nodes IH]; intros st; simpl.
  - now rewrite record_all_nil.
  - rewrite IH, top_node_record, record_all_app. reflexivity.
Qed.

Lemma classify_spec nodes :
  MCPParser.classify text imports nodes
  = {| MCPParser.fs_mcp :=
         omap (entity_of text imports true) (function_nodes nodes);
       MCPParser.fs_helpers :=
         omap (entity_of text imports false) (function_nodes nodes);
       MCPParser.fs_warnings :=
         omap (warning_of text imports) (function_nodes nodes) |}.
Proof. unfold MCPParser.classify. now rewrite top_loop_record. Qed.

Lemma keep_all_nil st : keep_all text st [] = st.
Proof. destruct st. unfold keep_all. simpl. now rewrite !app_nil_r. Qed.

Lemma keep_all_app st l1 l2 :
  keep_all text (keep_all text st l1) l2 = keep_all text st (l1 ++ l2).
Proof. unfold keep_all. simpl. now rewrite !omap_app, !app_assoc. Qed.

Lemma target_loop_keep targets lineno st :
  fold_left (MCPParser.constant_target text lineno) targets st
  = keep_all text st (name_targets targets lineno).
Proof.
  revert st. induction targets as [|t targets IH]; intros st; simpl.
  - now rewrite keep_all_nil.
  - rewrite IH. destruct t; simpl; try reflexivity.
    etransitivity;
      [|exact (keep_all_app st [(id, lineno)] (name_targets targets lineno))].
    f_equal.
    unfold keep_all, constant_of, constant_warning_of. simpl.
    destruct (MCPParser.extract_constant text lineno) as [[c|]|e];
      simpl; destruct st; simpl; now rewrite ?app_nil_r.
Qed.

Lemma constant_loop_keep nodes st :
  fold_left (MCPParser.constant_node text) nodes st
  = keep_all text st (constant_targets nodes).
Proof.
  revert st. induction nodes as [|n nodes IH]; intros st; simpl.
  - now rewrite keep_all_nil.
  - rewrite IH. unfold constant_targets. simpl.
    rewrite <- keep_all_app. f_equal.
    destruct n; simpl; try (now rewrite keep_all_nil).
    apply target_loop_keep.
Qed.

Lemma extract_constants_spec nodes :
  MCPParser.extract_constants text nodes
  = {| MCPParser.cs_constants :=
         omap (constant_of text) (constant_targets nodes);
       MCPParser.cs_warnings :=
         omap (constant_warning_of text) (constant_targets nodes) |}.
Proof. unfold MCPParser.extract_constants. now rewrite constant_loop_keep. Qed.

End LoopFacts.

(** ** The entities [parse_file] returns *)

Lemma parse_tree_spec {I : Interpreter} (text : string)
    (tree : ModuleAst) (imports : list string) :
  MCPParser.collect_imports (body tree) [] = Ok imports ->
  MCPParser.parse_tree text tree
  = Ok {| mcp_functions :=
            omap (entity_of text imports true)
                 (function_nodes (body tree));
          helper_functions :=
            omap (entity_of text imports false)
                 (function_nodes (body tree));
          module_constants :=
            omap (constant_of text) (constant_targets (body tree));
          other_functions := [];
          module_docstring := default "" (mod_docstring tree);
          result_imports := imports;
          content := text;
          warnings :=
            omap (constant_warning_of text) (constant_targets (body tree))
            ++ omap (warning_of text imports)
                    (function_nodes (body tree)) |}.
Proof.
  intros Himp. unfold MCPParser.parse_tree. rewrite Himp. simpl.
  now rewrite classify_spec, extract_constants_spec.
Qed.

(** C7: when the imports of the tree are collected, [parse_file] returns,
    whatever span recovery and signature synthesis do on the single
    definitions and constants. Each list holds, in the order of the visit,
    exactly the entities whose own extraction succeeded, so one that raises
    is dropped alone, and it leaves one warning. *)
Theorem C7_failures_are_isolated
    {I : Interpreter} (text : string) (tree : ModuleAst)
    (imports : list string) :
  MCPParser.collect_imports (body tree) [] = Ok imports ->
  exists r,
    MCPParser.parse_tree text tree = Ok r
    /\ mcp_functions r
       = omap (entity_of text imports true)
              (function_nodes (body tree))
    /\ helper_functions r
       = omap (entity_of text imports false)
              (function_nodes (body tree))
    /\ module_constants r
       = omap (constant_of text) (constant_targets (body tree))
    /\ warnings r
       = omap (constant_warning_of text) (constant_targets (body tree))
         ++ omap (warning_of text imports)
                 (function_nodes (body tree)).
Proof.
  intros Himp. rewrite (parse_tree_spec text tree imports Himp).
  eexists. split; [reflexivity|]. simpl. repeat split.
Qed.

(** C7 at a tree whose first definition cannot be recovered: the second
    definition is returned and the first leaves a warning. *)
Lemma C7_failures_are_isolated_witness :
  exists r,
    MCPParser.parse_tree (I := Fixture.python) Fixture.out_of_step_text
                         Fixture.out_of_step_tree = Ok r
    /\ map name (helper_functions r) = ["ok"]
    /\ warnings r = [FailedHelperFunction "bad" IndexError].
Proof.
  destruct (C7_failures_are_isolated (I := Fixture.python)
              Fixture.out_of_step_text
              Fixture.out_of_step_tree [] eq_refl)
    as (r & Hr & _ & Hh & _ & Hw).
  exists r. split; [exact Hr|]. rewrite Hh, Hw. split; reflexivity.
Defined.

(** C4 as stated fails on a function under two decorator lines: the span
    begins at the first decorator line, line 1, and the recorded line
    number is 3, the line of [def]. *)
Lemma C4_start_line_counterexample :
  exists r f,
    MCPParser.parse_tree (I := Fixture.python) Fixture.two_decorators_text
                         Fixture.two_decorators_tree = Ok r
    /\ mcp_functions r = [f]
    /\ MCPParser.scan_decorators (lines_of Fixture.two_decorators_text) 2 2
       = Ok 0
    /\ startswith "@a" (source_code f) = true
    /\ line_number f = 3%positive
    /\ line_number f <> 1%positive.
Proof.
  eexists. eexists. split; [vm_compute; reflexivity|].
  split; [reflexivity|]. repeat split; try reflexivity. discriminate.
Qed.

(** C4, amended: the line number recorded on every extracted entity is the
    1-based line of its [def] line, with or without decorators; decorator
    lines are part of the recovered source text and do not move it. *)
Theorem C4_line_number_is_def_line
    {I : Interpreter} (text : string) (tree : ModuleAst)
    (r : ParseResult) (f : MCPFunction) :
  MCPParser.parse_tree text tree = Ok r ->
  In f (mcp_functions r ++ helper_functions r) ->
  exists n,
    In n (function_nodes (body tree))
    /\ name f = fd_name n.2
    /\ line_number f = fd_lineno n.2
    /\ MCPParser._extract_function_source text n.2 = Ok (source_code f).
Proof.
  intros Hr Hin.
  destruct (MCPParser.collect_imports (body tree) []) as [imports|e] eqn:Himp;
    [|unfold MCPParser.parse_tree in Hr; rewrite Himp in Hr; discriminate].
  rewrite (parse_tree_spec text tree imports Himp) in Hr.
  injection Hr as <-. simpl in Hin.
  assert (Hex : exists n marked,
             In n (function_nodes (body tree))
             /\ entity_of text imports marked n = Some f).
  { apply in_app_or in Hin as [Hin|Hin];
      apply list_elem_of_In, list_elem_of_omap in Hin as (n & Hn & Hf);
      apply list_elem_of_In in Hn; eauto. }
  destruct Hex as (n & marked & Hn & Hf). exists n. split; [exact Hn|].
  unfold entity_of in Hf.
  destruct (Bool.eqb _ marked); [|discriminate].
  destruct (MCPParser.make_function text imports n.2) as [f'|e]
    eqn:Hmk; [|discriminate].
  injection Hf as ->. unfold MCPParser.make_function in Hmk.
  destruct (MCPParser._extract_function_source text n.2) as [src|e];
    simpl in Hmk; [|discriminate].
  destruct (MCPParser._build_signature_string n.2) as [sig|e];
    simpl in Hmk; [|discriminate].
  injection Hmk as <-. simpl. repeat split.
Qed.

(** The amended C4 at the function under two decorator lines: the recorded
    line number is 3. *)
Lemma C4_line_number_is_def_line_witness :
  exists r f n,
    MCPParser.parse_tree (I := Fixture.python) Fixture.two_decorators_text
                         Fixture.two_decorators_tree = Ok r
    /\ mcp_functions r = [f]
    /\ In n (function_nodes (body Fixture.two_decorators_tree))
    /\ line_number f = fd_lineno n.2
    /\ line_number f = 3%positive.
Proof.
  assert (H : exists r f,
             MCPParser.parse_tree (I := Fixture.python)
               Fixture.two_decorators_text
                                  Fixture.two_decorators_tree = Ok r
             /\ mcp_functions r = [f] /\ line_number f = 3%positive).
  { eexists. eexists. split; [vm_compute; reflexivity|]. split; reflexivity. }
  destruct H as (r & f & Hr & Hf & Hl).
  assert (Hin : In f (mcp_functions r ++ helper_functions r))
    by (rewrite Hf; left; reflexivity).
  destruct (C4_line_number_is_def_line (I := Fixture.python)
              Fixture.two_decorators_text Fixture.two_decorators_tree
              r f Hr Hin) as (n & Hn & _ & Hln & _).
  exists r, f, n. repeat split; assumption.
Defined.

(** ** Constants and imports *)

Lemma collect_imports_skip (pre post : list stmt) (n : stmt)
    (acc : list string) :
  MCPParser.import_lines n = Ok [] ->
  MCPParser.collect_imports (pre ++ n :: post) acc
  = MCPParser.collect_imports (pre ++ post) acc.
Proof.
  intros Hn. revert acc. induction pre as [|p pre IH]; intros acc; simpl.
  - rewrite Hn. simpl. now rewrite app_nil_r.
  - destruct (MCPParser.import_lines p) as [ls|e]; simpl;
      [apply IH | reflexivity].
Qed.

(** C9: an annotated assignment at top level is invisible to the parser.
    Whatever stands before and after it, the result is the one for the
    tree without it, so it adds no constant; the constant loop collects
    from plain assignments to simple names only. *)
Theorem C9_annotated_assignment_yields_no_constant
    {I : Interpreter} (text : string)
    (doc : option string) (pre post : list stmt)
    (target ann : expr) (has_value : bool) (lineno : positive) :
  MCPParser.parse_tree text
    {| body := pre ++ AnnAssign target ann has_value lineno :: post;
       mod_docstring := doc |}
  = MCPParser.parse_tree text
      {| body := pre ++ post; mod_docstring := doc |}
  /\ (forall st,
        MCPParser.constant_node text st
          (AnnAssign target ann has_value lineno) = st)
  /\ (forall nodes,
        MCPParser.cs_constants (MCPParser.extract_constants text nodes)
        = omap (constant_of text) (constant_targets nodes)).
Proof.
  split; [|split].
  - unfold MCPParser.parse_tree. simpl.
    rewrite collect_imports_skip by reflexivity.
    destruct (MCPParser.collect_imports (pre ++ post) []) as [imports|e];
      simpl; [|reflexivity].
    rewrite !classify_spec, !extract_constants_spec.
    unfold function_nodes, constant_targets.
    rewrite !flat_map_app. simpl. reflexivity.
  - reflexivity.
  - intros nodes. now rewrite extract_constants_spec.
Qed.

(** An annotated constant next to a plain one: only the plain one is
    collected. *)
Example annotated_constant_absent :
  exists r,
    MCPParser.parse_tree (I := Fixture.python) Fixture.annotated_text
                         Fixture.annotated_tree = Ok r
    /\ module_constants r = ["Y = 2"].
Proof. eexists. split; [vm_compute; reflexivity | reflexivity]. Qed.


(** ** Deduplication of constants in the builder *)

Import GradioMCPBuilder.

Lemma add_constants_spec (cs : list string) :
  forall (seen seen' : gmap string string) (consts consts' : list string),
    (forall k, is_Some (seen !! k) <-> In k (map const_name consts)) ->
    NoDup (map const_name consts) ->
    fold_left add_constant cs (seen, consts) = (seen', consts') ->
    (forall k, is_Some (seen' !! k) <-> In k (map const_name consts'))
    /\ NoDup (map const_name consts')
    /\ exists new,
        consts' = consts ++ new
        /\ (forall c, In c new ->
              ~ In (const_name c) (map const_name consts)
              /\ first_seen cs c)
        /\ (forall c, In c cs -> contains "=" c = true ->
              In (const_name c) (map const_name consts')).
Proof.
  induction cs as [|c cs IH]; intros seen seen' consts consts' Hdom Hnd Hfold.
  - simpl in Hfold. injection Hfold as <- <-.
    split; [exact Hdom|]. split; [exact Hnd|].
    exists []. rewrite app_nil_r. split; [reflexivity|].
    split; intros c [].
  - simpl in Hfold.
    destruct (contains "=" c) eqn:Heq;
      [destruct (seen !! const_name c) as [old|] eqn:Hseen|].
    + (* a later duplicate *)
      destruct (IH _ _ _ _ Hdom Hnd Hfold)
        as (Hdom' & Hnd' & new & -> & Hnew & Hcov).
      assert (Hc : In (const_name c) (map const_name consts))
        by (apply Hdom; rewrite Hseen; eauto).
      split; [exact Hdom'|]. split; [exact Hnd'|].
      exists new. split; [reflexivity|]. split.
      * intros c0 Hc0. destruct (Hnew c0 Hc0) as (Hfresh & l1 & l2 & -> & Hl1).
        split; [exact Hfresh|]. exists (c :: l1), l2. split; [reflexivity|].
        intros c' [<-|Hc'] Hc'eq; [|now apply Hl1].
        intros Hsame. apply Hfresh. now rewrite <- Hsame.
      * intros c0 [<-|Hc0] Hc0eq; [|now apply Hcov].
        rewrite map_app. apply in_or_app. now left.
    + (* a new name *)
      assert (Hfresh : ~ In (const_name c) (map const_name consts)).
      { intros Hin. apply Hdom in Hin. rewrite Hseen in Hin.
        destruct Hin as [? [=]]. }
      destruct (IH (<[const_name c := c]> seen) seen' (consts ++ [c]) consts')
        as (Hdom' & Hnd' & new & -> & Hnew & Hcov).
      * intros k. rewrite map_app, in_app_iff. simpl.
        rewrite lookup_insert_is_Some. rewrite <- Hdom.
        destruct (decide (const_name c = k)) as [->|Hne]; [tauto|].
        split.
        -- intros [?|[_ ?]]; [congruence | tauto].
        -- intros [?|[?|[]]]; tauto.
      * rewrite map_app. simpl. apply NoDup_app. split; [exact Hnd|].
        split; [|apply NoDup_singleton].
        intros k Hk Hk'. apply list_elem_of_In in Hk.
        apply list_elem_of_singleton in Hk'. subst k. now apply Hfresh.
      * exact Hfold.
      * split; [exact Hdom'|]. split; [exact Hnd'|].
        exists (c :: new). split; [now rewrite <- app_assoc|]. split.
        -- intros c0 [<-|Hc0].
           ++ split; [exact Hfresh|]. exists [], cs.
              split; [reflexivity|]. intros c' [].
           ++ destruct (Hnew c0 Hc0) as (Hfresh0 & l1 & l2 & -> & Hl1).
              rewrite map_app, in_app_iff in Hfresh0. simpl in Hfresh0.
              split; [tauto|]. exists (c :: l1), l2. split; [reflexivity|].
              intros c' [<-|Hc'] Hc'eq; [|now apply Hl1]. tauto.
        -- intros c0 [<-|Hc0] Hc0eq; [|now apply Hcov].
           rewrite !map_app, !in_app_iff. simpl. tauto.
    + (* no assignment sign: skipped *)
      destruct (IH _ _ _ _ Hdom Hnd Hfold)
        as (Hdom' & Hnd' & new & -> & Hnew & Hcov).
      split; [exact Hdom'|]. split; [exact Hnd'|].
      exists new. split; [reflexivity|]. split.
      * intros c0 Hc0. destruct (Hnew c0 Hc0) as (Hfresh & l1 & l2 & -> & Hl1).
        split; [exact Hfresh|]. exists (c :: l1), l2. split; [reflexivity|].
        intros c' [<-|Hc'] Hc'eq; [congruence | now apply Hl1].
      * intros c0 [<-|Hc0] Hc0eq; [congruence | now apply Hcov].
Qed.

(** ** The parsing stage of the builder *)

Section BuildFacts.

Context {I : Interpreter} {S : Surroundings}.

Lemma parse_one_raise seen f (r : Run) e :
  MCPParser.parse_file f = Raise e -> parse_one seen f r = (r, Raise e).
Proof.
  intros H. unfold parse_one, mbind, get_builder, mraise. now rewrite H.
Qed.

Lemma parse_one_ok seen f (r : Run) x :
  MCPParser.parse_file f = Ok x ->
  exists seen1 consts1,
    fold_left add_constant (module_constants x)
              (seen, b_module_constants (builder r)) = (seen1, consts1)
    /\ parse_one seen f r
       = ({| builder :=
               {| b_mcp_functions :=
                    b_mcp_functions (builder r) ++ mcp_functions x;
                  b_helper_functions :=
                    b_helper_functions (builder r) ++ helper_functions x;
                  b_module_constants := consts1 |};
             ext := ext r;
             trace := trace r |}, Ok seen1).
Proof.
  intros H. unfold parse_one, mbind, get_builder. rewrite H.
  destruct (fold_left add_constant _ _) as [seen1 consts1].
  exists seen1, consts1. split; reflexivity.
Qed.

Lemma parse_loop_spec files :
  forall seen (r r' : Run) res,
    parse_loop files seen r = (r', res) ->
    ext r' = ext r
    /\ trace r' = trace r
    /\ exists results seen',
        b_mcp_functions (builder r')
        = b_mcp_functions (builder r) ++ flat_map mcp_functions results
        /\ fold_left add_constant (flat_map module_constants results)
                     (seen, b_module_constants (builder r))
           = (seen', b_module_constants (builder r'))
        /\ (forall x, In x results ->
              exists f, In f files /\ MCPParser.parse_file f = Ok x)
        /\ (res = Ok tt ->
            Forall2 (fun f x => MCPParser.parse_file f = Ok x) files results)
        /\ (forall e, res = Raise e ->
              exists f, In f files /\ MCPParser.parse_file f = Raise e).
Proof.
  induction files as [|f files IH]; intros seen r r' res Hloop.
  - injection Hloop as <- <-. split; [reflexivity|]. split; [reflexivity|].
    exists [], seen. simpl. rewrite app_nil_r.
    repeat split; auto; [intros x [] | discriminate].
  - simpl in Hloop. unfold mbind in Hloop.
    destruct (MCPParser.parse_file f) as [x|e] eqn:Hf.
    + destruct (parse_one_ok seen f r x Hf) as (seen1 & consts1 & Hfold & Hone).
      rewrite Hone in Hloop.
      destruct (IH _ _ _ _ Hloop)
        as (Hext & Htrace & results & seen' & Hmcp & Hcs & Hres & Hok & Hraise).
      simpl in *. split; [exact Hext|]. split; [exact Htrace|].
      exists (x :: results), seen'. simpl. split; [|split; [|split; [|split]]].
      * now rewrite Hmcp, app_assoc.
      * now rewrite fold_left_app, Hfold.
      * intros y [<-|Hy]; [eauto|].
        destruct (Hres y Hy) as (g & Hg & Hgy). eauto.
      * intros Hr. constructor; [exact Hf | now apply Hok].
      * intros e He. destruct (Hraise e He) as (g & Hg & Hge). eauto.
    + rewrite (parse_one_raise seen f r e Hf) in Hloop.
      injection Hloop as <- <-. split; [reflexivity|]. split; [reflexivity|].
      exists [], seen. simpl. rewrite app_nil_r.
      repeat split; auto; [intros x [] | discriminate |].
      intros e' [= <-]. eauto.
Qed.

Lemma mseq_enter {A} (s : Step) (k : M A) (r : Run) :
  mseq (enter s) k r
  = k {| builder := builder r; ext := ext r; trace := trace r ++ [s] |}.
Proof. reflexivity. Qed.

Lemma mseq_raise {A B} (m : M A) (k : M B) (r r' : Run) e :
  m r = (r', Raise e) -> mseq m k r = (r', Raise e).
Proof. intros H. unfold mseq, mbind. now rewrite H. Qed.

Lemma parse_input_files_no_entry (files : list Path) (r : Run) :
  b_mcp_functions (builder r) = [] ->
  (forall f x, In f files -> MCPParser.parse_file f = Ok x ->
               mcp_functions x = []) ->
  exists r' e,
    _parse_input_files files r = (r', Raise e)
    /\ trace r' = trace r
    /\ ext r' = ext r
    /\ ((forall f, In f files -> exists x, MCPParser.parse_file f = Ok x) ->
        e = ValueError "No MCP functions found in input files").
Proof.
  intros Hfresh Hnone. unfold _parse_input_files, mseq, mbind.
  destruct (parse_loop files ∅ r) as [r1 res] eqn:Hloop.
  destruct (parse_loop_spec files _ _ _ _ Hloop)
    as (Hext & Htrace & results & seen' & Hmcp & _ & Hres & _ & Hraise).
  assert (Hempty : b_mcp_functions (builder r1) = []).
  { rewrite Hmcp, Hfresh. simpl.
    clear Hmcp. induction results as [|x results IH]; [reflexivity|].
    simpl. destruct (Hres x (or_introl eq_refl)) as (f & Hf & Hfx).
    rewrite (Hnone f x Hf Hfx). simpl. apply IH.
    intros y Hy. apply Hres. now right. }
  destruct res as [[]|e].
  - unfold get_builder, mraise. rewrite Hempty.
    exists r1. eexists. split; [reflexivity|]. auto.
  - exists r1, e. split; [reflexivity|]. split; [exact Htrace|].
    split; [exact Hext|]. intros Hall.
    destruct (Hraise e eq_refl) as (f & Hf & Hfe).
    destruct (Hall f Hf) as (x & Hx). congruence.
Qed.

(** C6: when no processed file yields an entry point, [build] raises to
    its caller, the only step entered is the parsing stage, and nothing
    the later steps act on has changed: no generation step has run. When
    every file parses, the error is the [ValueError] of the parsing
    stage. *)
Theorem C6_no_entry_point_aborts_before_generation
    (files : list Path) (r : Run) :
  b_mcp_functions (builder r) = [] ->
  (forall f x, In f files -> MCPParser.parse_file f = Ok x ->
               mcp_functions x = []) ->
  exists r' e,
    build files r = (r', Raise e)
    /\ trace r' = trace r ++ [ParseInputFiles]
    /\ (forall s, In s (trace r') -> In s (trace r) \/ is_generation s = false)
    /\ ext r' = ext r
    /\ ((forall f, In f files -> exists x, MCPParser.parse_file f = Ok x) ->
        e = ValueError "No MCP functions found in input files").
Proof.
  intros Hfresh Hnone. unfold build. rewrite mseq_enter.
  set (r0 := {| builder := builder r; ext := ext r;
                trace := trace r ++ [ParseInputFiles] |}).
  destruct (parse_input_files_no_entry files r0 Hfresh Hnone)
    as (r' & e & Hrun & Htrace & Hext & He).
  exists r', e. split; [now apply mseq_raise|].
  split; [exact Htrace|]. split; [|split; [exact Hext | exact He]].
  intros s Hs. rewrite Htrace in Hs. simpl in Hs.
  apply in_app_or in Hs as [Hs|[<-|[]]]; [now left | now right].
Qed.

End BuildFacts.

(** C6 on a file that holds a helper only: the build stops in the parsing
    stage with the [ValueError] and no later step has acted. *)
Lemma C6_no_entry_point_aborts_before_generation_witness :
  exists r' e,
    build (I := Fixture.python) (S := Fixture.recorder)
      ["helpers.py"] Fixture.fresh_run
    = (r', Raise e)
    /\ trace r' = [ParseInputFiles]
    /\ ext r' = []
    /\ e = ValueError "No MCP functions found in input files".
Proof.
  destruct (C6_no_entry_point_aborts_before_generation
              (I := Fixture.python) (S := Fixture.recorder)
              ["helpers.py"] Fixture.fresh_run eq_refl)
    as (r' & e & Hrun & Htrace & _ & Hext & He).
  - intros f x [<-|[]] Hx. vm_compute in Hx. injection Hx as <-. reflexivity.
  - exists r', e. repeat split; try assumption. apply He.
    intros f [<-|[]]. eexists. vm_compute. reflexivity.
Defined.

(** With an entry point among the files, the same build goes through all
    its steps. *)
Example build_runs_all_steps :
  exists r',
    build (I := Fixture.python) (S := Fixture.recorder)
      ["one.py"; "two.py"] Fixture.fresh_run
    = (r', Ok tt)
    /\ trace r'
       = [ParseInputFiles; ImproveDocstrings; GenerateTestPrompts;
          CreateOutputDirectories; GenerateServerFiles; GenerateClientFiles;
          GenerateDocumentation; GenerateRequirements; GenerateConfigFile]
    /\ map name (b_mcp_functions (builder r')) = ["f"].
Proof. eexists. split; [vm_compute; reflexivity|]. split; reflexivity. Qed.

(** ** Methods of top-level classes *)

Lemma method_is_visited (nodes cbody : list stmt) (cname : string)
    (cline : positive) (node : FunctionDef) :
  In (ClassDef cname cbody cline) nodes ->
  In (FunctionDefStmt node) cbody ->
  In (true, node) (function_nodes nodes).
Proof.
  intros Hc Hm. unfold function_nodes. apply in_flat_map.
  exists (ClassDef cname cbody cline). split; [exact Hc|]. simpl.
  apply list_elem_of_In, list_elem_of_omap.
  exists (FunctionDefStmt node).
  split; [now apply list_elem_of_In | reflexivity].
Qed.

(** C1, amended: for every marked method of a top-level class whose first
    regular parameter (the first entry of [node.args.args]) is named
    [self], the entry point returned for it carries the method's name and
    its signature keeps that parameter as the first entry of the parameter
    list, rendered [self], or [self: T] when it is annotated, followed by
    the remaining regular parameters and the return annotation; the class
    of Scenario C yields one entry point [m] with the signature
    [(self, x: str)]. *)
Theorem C1_method_signature_keeps_self
    {I : Interpreter} (text : string) (tree : ModuleAst)
    (imports : list string) (cname : string) (cbody : list stmt)
    (cline : positive) (node : FunctionDef) (a : ast_arg)
    (rest : list ast_arg) (f : MCPFunction) :
  MCPParser.collect_imports (body tree) [] = Ok imports ->
  In (ClassDef cname cbody cline) (body tree) ->
  In (FunctionDefStmt node) cbody ->
  MCPParser.has_mcp_decorator node = true ->
  args (fd_args node) = a :: rest ->
  arg a = "self" ->
  MCPParser.make_function text imports node = Ok f ->
  exists r s strs suffix,
    MCPParser.parse_tree text tree = Ok r
    /\ In f (mcp_functions r)
    /\ name f = fd_name node
    /\ match annotation a with
       | None => s = "self"
       | Some t => exists ty, unparse t = Ok ty /\ s = "self: " +:+ ty
       end
    /\ Forall2 (rendered) rest strs
    /\ return_suffix node suffix
    /\ signature f = "(" +:+ join ", " (s :: strs) +:+ ")" +:+ suffix.
Proof.
  intros Himp Hclass Hmethod Hdec Hargs Hself Hmk.
  assert (Hshape : exists sig src,
             MCPParser._build_signature_string node = Ok sig
             /\ f = {| name := fd_name node;
                       docstring := default "" (fd_docstring node);
                       signature := sig; source_code := src;
                       line_number := fd_lineno node;
                       module_imports := imports |}).
  { unfold MCPParser.make_function in Hmk.
    destruct (MCPParser._extract_function_source text node) as [src|e];
      simpl in Hmk; [|discriminate].
    destruct (MCPParser._build_signature_string node) as [sig|e];
      simpl in Hmk; [|discriminate].
    injection Hmk as <-. eauto. }
  destruct Hshape as (sig & src & Hsig & Hf).
  destruct (signature_shape node sig Hsig)
    as (strs & suffix & Hstrs & Hsuffix & ->).
  rewrite Hargs in Hstrs. cbn [rmap] in Hstrs.
  destruct (MCPParser.arg_str a) as [s|e] eqn:Ha;
    cbn [rbind] in Hstrs; [|discriminate].
  destruct (rmap (MCPParser.arg_str) rest) as [ss|e] eqn:Hrest;
    cbn [rbind] in Hstrs; [|discriminate].
  injection Hstrs as <-.
  eexists _, s, ss, suffix. split; [apply (parse_tree_spec _ _ _ Himp)|].
  cbn [mcp_functions]. split; [|subst f; cbn [name signature]; split;
                                 [reflexivity|split; [|split; [|split]]]].
  - apply list_elem_of_In, list_elem_of_omap. exists (true, node). split.
    + apply list_elem_of_In.
      exact (method_is_visited _ _ _ _ _ Hclass Hmethod).
    + unfold entity_of. simpl. now rewrite Hdec, Hmk.
  - apply arg_str_rendered in Ha. unfold rendered in Ha.
    rewrite Hself in Ha. exact Ha.
  - apply rmap_arg_str_rendered, Hrest.
  - exact Hsuffix.
  - reflexivity.
Qed.

(** The amended C1 at the class of Scenario C: one entry point [m] with
    the signature [(self, x: str)]. *)
Lemma C1_method_signature_keeps_self_witness :
  exists r f,
    MCPParser.parse_tree (I := Fixture.python) Fixture.method_text
                         Fixture.method_tree = Ok r
    /\ mcp_functions r = [f] /\ name f = "m"
    /\ signature f = "(self, x: str)".
Proof.
  destruct (C1_method_signature_keeps_self (I := Fixture.python)
              Fixture.method_text Fixture.method_tree [] "C"
              [FunctionDefStmt Fixture.method_m] 1 Fixture.method_m
              (Fixture.plain "self") [Fixture.typed "x" "str"]
              {| name := "m"; docstring := ""; signature := "(self, x: str)";
                 source_code :=
                   Fixture.text ["    @mcp.tool()";
                                 "    def m(self, x: str):";
                                 "        pass"; ""];
                 line_number := 3; module_imports := [] |}
              eq_refl (or_introl eq_refl) (or_introl eq_refl)
              eq_refl eq_refl eq_refl eq_refl)
    as (r & s & strs & suffix & Hr & _).
  exists r. eexists. split; [exact Hr|].
  vm_compute in Hr. injection Hr as <-. repeat split.
Defined.

(** * Further properties of the parser *)

(** ** Lines and texts *)

Lemma split_not_nil (sep : ascii) (s : string) : split sep s <> [].
Proof.
  induction s as [|c s IH]; simpl; [discriminate|].
  destruct (Ascii.eqb c sep); [discriminate|].
  destruct (split sep s); discriminate.
Qed.

Lemma split_length (sep : ascii) (s : string) : 1 <= length (split sep s).
Proof.
  pose proof (split_not_nil sep s). destruct (split sep s); simpl; [easy | lia].
Qed.

Lemma join_cons (sep w : string) (ws : list string) :
  ws <> [] -> join sep (w :: ws) = w +:+ sep +:+ join sep ws.
Proof. destruct ws; [easy | reflexivity]. Qed.

Lemma string_app_nil_r (s : string) : s +:+ "" = s.
Proof.
  induction s as [|c s IH]; [reflexivity|].
  now rewrite string_app_cons, IH.
Qed.

(** [sep.join(s.split(sep))] gives [s] back. *)
Lemma join_split (sep : ascii) (s : string) :
  join (String sep "") (split sep s) = s.
Proof.
  induction s as [|c s IH]; [reflexivity|]. simpl.
  destruct (Ascii.eqb_spec c sep) as [->|Hne].
  - rewrite join_cons by apply split_not_nil. now rewrite IH.
  - destruct (split sep s) as [|w ws] eqn:Hs; [now destruct (split_not_nil sep s)|].
    destruct ws as [|w' ws].
    + simpl in *. now rewrite IH.
    + rewrite join_cons in * by discriminate.
      rewrite string_app_cons. now rewrite IH.
Qed.

Lemma prefix_app (a b : string) : String.prefix a (a +:+ b) = true.
Proof.
  induction a as [|c a IH]; [now destruct b|].
  rewrite string_app_cons. simpl.
  destruct (ascii_dec c c); [exact IH | congruence].
Qed.

Lemma contains_prefix (sub s : string) :
  String.prefix sub s = true -> contains sub s = true.
Proof. intros H. destruct s; cbn [contains]; now rewrite H. Qed.

(** [sub in pre + sub + post] *)
Lemma contains_app (pre sub post : string) :
  contains sub (pre +:+ sub +:+ post) = true.
Proof.
  induction pre as [|c pre IH].
  - apply contains_prefix. exact (prefix_app sub post).
  - rewrite string_app_cons. cbn [contains]. rewrite IH. apply orb_true_r.
Qed.

Lemma join_app (sep : string) (l1 l2 : list string) :
  join sep (l1 ++ l2)
  = join sep l1
    +:+ (match l1, l2 with [], _ | _, [] => "" | _, _ => sep end)
    +:+ join sep l2.
Proof.
  induction l1 as [|w l1 IH]; [reflexivity|].
  destruct l2 as [|z l2].
  - rewrite app_nil_r. now rewrite !string_app_nil_r.
  - destruct l1 as [|y l1]; [reflexivity|].
    change ((w :: y :: l1) ++ z :: l2) with (w :: ((y :: l1) ++ z :: l2)).
    rewrite join_cons by discriminate.
    rewrite IH. rewrite (join_cons sep w (y :: l1)) by discriminate.
    now rewrite !string_app_assoc.
Qed.

Lemma join_app_middle (sep : string) (l1 m l2 : list string) :
  exists pre post, join sep (l1 ++ m ++ l2) = pre +:+ join sep m +:+ post.
Proof.
  rewrite (join_app sep l1 (m ++ l2)), (join_app sep m l2).
  set (g1 := match l1, m ++ l2 with [], _ | _, [] => "" | _, _ => sep end).
  set (g2 := match m, l2 with [], _ | _, [] => "" | _, _ => sep end).
  exists (join sep l1 +:+ g1), (g2 +:+ join sep l2).
  now rewrite !string_app_assoc.
Qed.

Lemma slice_middle {A} (l : list A) (a b : nat) :
  l = take a l ++ slice l a b ++ drop (b - a) (drop a l).
Proof. unfold slice. now rewrite !take_drop. Qed.

(** The join of a slice of the lines of a text occurs in the text. *)
Lemma slice_in_text (text : string) (a b : nat) :
  contains (join NL (slice (lines_of text) a b)) text = true.
Proof.
  pose proof (join_split nl text) as Htext. fold NL in Htext.
  fold (lines_of text) in Htext.
  rewrite (slice_middle (lines_of text) a b) in Htext.
  destruct (join_app_middle NL (take a (lines_of text))
              (slice (lines_of text) a b)
              (drop (b - a) (drop a (lines_of text))))
    as (pre & post & Hmid).
  rewrite Hmid in Htext. rewrite <- Htext at 2. apply contains_app.
Qed.

(** ** Span recovery: when it raises and what it returns *)

Lemma scan_decorators_out_of_range (lines : list string) (n start : nat) :
  length lines < n ->
  MCPParser.scan_decorators lines n start = Raise IndexError.
Proof.
  intros Hn. destruct n as [|i]; [lia|]. simpl.
  now rewrite (lookup_ge_None_2 lines i) by lia.
Qed.

Lemma extract_out_of_range (text : string) (node : FunctionDef) :
  length (lines_of text) <= def_index node ->
  MCPParser._extract_function_source text node = Raise IndexError.
Proof.
  intros Hlen. unfold MCPParser._extract_function_source.
  fold (lines_of text). fold (def_index node).
  destruct (decide (length (lines_of text) < def_index node)) as [Hlt|Hge].
  - now rewrite scan_decorators_out_of_range.
  - destruct (scan_decorators_spec (lines_of text) (def_index node)
                (def_index node) ltac:(lia) ltac:(lia)) as (s & Hs & _).
    rewrite Hs. simpl.
    now rewrite (lookup_ge_None_2 (lines_of text) (def_index node)) by lia.
Qed.

Lemma extract_in_range (text : string) (node : FunctionDef) :
  def_index node < length (lines_of text) ->
  exists s e,
    MCPParser._extract_function_source text node
    = Ok (join NL (slice (lines_of text) s e))
    /\ s <= def_index node < e
    /\ e <= length (lines_of text).
Proof.
  intros Hlen.
  destruct (lookup_lt_is_Some_2 _ _ Hlen) as [def_line Hdl].
  destruct (scan_decorators_spec (lines_of text) (def_index node)
              (def_index node) ltac:(lia) ltac:(lia))
    as (s & Hs & Hwhere & _).
  assert (Hno : Pos.to_nat (fd_lineno node) = S (def_index node))
    by (unfold def_index; lia).
  destruct (scan_end_lines (MCPParser.function_boundary (indent_of def_line))
              (lines_of text) (S (def_index node)) ltac:(lia))
    as (Hrange & _).
  exists s. eexists. split.
  - unfold MCPParser._extract_function_source.
    fold (lines_of text). fold (def_index node).
    rewrite Hs. simpl. rewrite Hdl, Hno. reflexivity.
  - split; [|lia]. destruct Hwhere as [->|[? _]]; lia.
Qed.

(** X1: span recovery of a function succeeds exactly when the text has the
    line the node names; otherwise it raises [IndexError]. *)
Theorem X1_function_source_raises_iff_line_missing
    (text : string) (node : FunctionDef) :
  (def_index node < length (lines_of text) <->
   exists src, MCPParser._extract_function_source text node = Ok src)
  /\ (length (lines_of text) <= def_index node <->
      MCPParser._extract_function_source text node = Raise IndexError).
Proof.
  split; split.
  - intros Hlen. destruct (extract_in_range text node Hlen) as (s & e & H & _).
    eauto.
  - intros [src Hsrc].
    destruct (decide (def_index node < length (lines_of text))); [assumption|].
    rewrite extract_out_of_range in Hsrc by lia. discriminate.
  - apply extract_out_of_range.
  - intros Hraise.
    destruct (decide (length (lines_of text) <= def_index node)); [assumption|].
    destruct (extract_in_range text node ltac:(lia)) as (s & e & H & _).
    congruence.
Qed.

(** X2: the recovered source of a function is a verbatim piece of the
    text: it occurs in the text, it is a run of whole lines of the text
    joined by newlines, and that run holds the [def] line. *)
Theorem X2_function_source_is_verbatim
    (text : string) (node : FunctionDef) (src : string) :
  MCPParser._extract_function_source text node = Ok src ->
  contains src text = true
  /\ exists s e,
      src = join NL (slice (lines_of text) s e)
      /\ s <= def_index node < e
      /\ e <= length (lines_of text)
      /\ slice (lines_of text) s e !! (def_index node - s)
         = lines_of text !! def_index node.
Proof.
  intros Hsrc.
  assert (Hlen : def_index node < length (lines_of text)).
  { destruct (decide (def_index node < length (lines_of text))); [assumption|].
    rewrite extract_out_of_range in Hsrc by lia. discriminate. }
  destruct (extract_in_range text node Hlen) as (s & e & H & Hse & He).
  rewrite H in Hsrc. injection Hsrc as <-.
  split; [apply slice_in_text|].
  exists s, e. split; [reflexivity|]. split; [exact Hse|]. split; [exact He|].
  unfold slice. rewrite lookup_take_lt by lia. rewrite lookup_drop.
  f_equal. lia.
Qed.

(** X2 at the class of Scenario C: the method's source, decorator
    included, occurs in the text of the file. *)
Lemma X2_function_source_is_verbatim_witness :
  contains (Fixture.text ["    @mcp.tool()"; "    def m(self, x: str):";
                          "        pass"; ""])
           Fixture.method_text = true.
Proof.
  exact (proj1 (X2_function_source_is_verbatim Fixture.method_text
                  Fixture.method_m _ eq_refl)).
Defined.

(** ** Constants: what the extractor returns *)

Lemma lstrip_suffix (s : string) : exists pre, s = pre +:+ lstrip s.
Proof.
  induction s as [|c s [pre IH]]; [now exists ""|]. simpl.
  destruct (is_space c); [|now exists ""].
  exists (String c pre). now rewrite string_app_cons, <- IH.
Qed.

Lemma rstrip_prefix (s : string) : exists post, s = rstrip s +:+ post.
Proof.
  induction s as [|c s [post IH]]; [now exists ""|]. simpl.
  destruct (rstrip s) as [|d r] eqn:Hr.
  - destruct (is_space c).
    + now exists (String c s).
    + exists s. reflexivity.
  - exists post. now rewrite string_app_cons, <- IH.
Qed.

Lemma strip_inside (s : string) : exists pre post, s = pre +:+ strip s +:+ post.
Proof.
  destruct (lstrip_suffix s) as [pre Hpre].
  destruct (rstrip_prefix (lstrip s)) as [post Hpost].
  exists pre, post. unfold strip. now rewrite <- Hpost.
Qed.

Lemma slice_text_parts (text : string) (a b : nat) :
  exists pre post,
    text = pre +:+ join NL (slice (lines_of text) a b) +:+ post.
Proof.
  pose proof (join_split nl text) as Htext. fold NL in Htext.
  fold (lines_of text) in Htext.
  rewrite (slice_middle (lines_of text) a b) in Htext.
  destruct (join_app_middle NL (take a (lines_of text))
              (slice (lines_of text) a b)
              (drop (b - a) (drop a (lines_of text))))
    as (pre & post & Hmid).
  rewrite Hmid in Htext. eauto.
Qed.

Lemma truthy_not_empty (s : string) : truthy s = true <-> s <> "".
Proof. destruct s; simpl; split; congruence. Qed.

Lemma extract_constant_some (text : string) (lineno : positive) (c : string) :
  MCPParser.extract_constant text lineno = Ok (Some c) ->
  exists first e,
    lines_of text !! (Pos.to_nat lineno - 1) = Some first
    /\ e = MCPParser.scan_end
             (MCPParser.constant_boundary (indent_of first))
             (drop (Pos.to_nat lineno - 1 + 1) (lines_of text))
             (Pos.to_nat lineno - 1 + 1) (length (lines_of text))
    /\ c = strip (join NL (slice (lines_of text) (Pos.to_nat lineno - 1) e))
    /\ truthy c = true
    /\ startswith "#" c = false
    /\ contains "=" c = true.
Proof.
  unfold MCPParser.extract_constant. fold (lines_of text).
  destruct (lines_of text !! (Pos.to_nat lineno - 1)) as [first|] eqn:Hfirst;
    [|discriminate].
  cbv zeta.
  set (e := MCPParser.scan_end _ _ _ _).
  destruct (slice (lines_of text) (Pos.to_nat lineno - 1) e) as [|l ls] eqn:Hsl;
    [discriminate|].
  set (c' := strip (join NL (l :: ls))).
  destruct (truthy c') eqn:Ht; [|discriminate].
  destruct (startswith "#" c') eqn:Hh; [discriminate|].
  destruct (contains "=" c') eqn:He; [|discriminate].
  simpl. intros [= <-]. exists first, e.
  split; [reflexivity|]. split; [reflexivity|].
  split; [now rewrite Hsl|]. repeat split; assumption.
Qed.

(** X3: every constant [parse_file] returns comes from a simple-name
    target of a top-level assignment, occurs verbatim in the text, is not
    empty, holds an assignment sign and does not start as a comment. *)
Theorem X3_constants_are_verbatim_assignments
    {I : Interpreter} (text : string) (tree : ModuleAst)
    (r : ParseResult) (c : string) :
  MCPParser.parse_tree text tree = Ok r ->
  In c (module_constants r) ->
  (exists t, In t (constant_targets (body tree))
             /\ MCPParser.extract_constant text t.2 = Ok (Some c))
  /\ contains c text = true
  /\ c <> ""
  /\ contains "=" c = true
  /\ startswith "#" c = false.
Proof.
  intros Hr Hin.
  destruct (MCPParser.collect_imports (body tree) []) as [imports|e] eqn:Himp;
    [|unfold MCPParser.parse_tree in Hr; rewrite Himp in Hr; discriminate].
  rewrite (parse_tree_spec text tree imports Himp) in Hr.
  injection Hr as <-. simpl in Hin.
  apply list_elem_of_In, list_elem_of_omap in Hin as (t & Ht & Hc).
  apply list_elem_of_In in Ht. unfold constant_of in Hc.
  destruct (MCPParser.extract_constant text t.2) as [[c'|]|err] eqn:Hex;
    try discriminate.
  injection Hc as ->.
  destruct (extract_constant_some text t.2 c Hex)
    as (first & e & _ & _ & Hc & Htruthy & Hhash & Heq).
  split; [eauto|]. split; [|split; [now apply truthy_not_empty | auto]].
  destruct (slice_text_parts text (Pos.to_nat t.2 - 1) e) as (pre & post & Htext).
  destruct (strip_inside (join NL (slice (lines_of text) (Pos.to_nat t.2 - 1) e)))
    as (a & b & Hstrip).
  rewrite <- Hc in Hstrip. rewrite Hstrip in Htext.
  rewrite Htext.
  replace (pre +:+ (a +:+ c +:+ b) +:+ post)
    with ((pre +:+ a) +:+ c +:+ (b +:+ post))
    by now rewrite !string_app_assoc.
  apply contains_app.
Qed.

(** X3 at an annotated constant next to a plain one: the constant
    [Y = 2] occurs in the text. *)
Lemma X3_constants_are_verbatim_assignments_witness :
  contains "Y = 2" Fixture.annotated_text = true /\ "Y = 2" <> "".
Proof.
  destruct (X3_constants_are_verbatim_assignments (I := Fixture.python)
              Fixture.annotated_text Fixture.annotated_tree _ "Y = 2"
              eq_refl (or_introl eq_refl))
    as (_ & Hc & Hne & _).
  split; assumption.
Defined.

(** X4: the text of a constant runs from the line of its assignment to
    just before the first later line that is not blank, is indented no
    deeper than the assignment and starts a definition or holds an
    assignment sign without being a comment; when there is no such line it
    runs to the last line. The text is returned stripped. *)
Theorem X4_constant_span_ends_at_next_statement
    (text : string) (lineno : positive) (c : string) :
  MCPParser.extract_constant text lineno = Ok (Some c) ->
  exists first e,
    lines_of text !! (Pos.to_nat lineno - 1) = Some first
    /\ c = strip (join NL (slice (lines_of text) (Pos.to_nat lineno - 1) e))
    /\ Pos.to_nat lineno <= e <= length (lines_of text)
    /\ (e < length (lines_of text) ->
        exists l, lines_of text !! e = Some l
                  /\ is_blank_line l = false
                  /\ indent_of l <= indent_of first
                  /\ starts_statement l = true)
    /\ (forall k l, Pos.to_nat lineno <= k < e ->
          lines_of text !! k = Some l ->
          is_blank_line l = true
          \/ indent_of first < indent_of l
          \/ starts_statement l = false).
Proof.
  intros Hc.
  destruct (extract_constant_some text lineno c Hc)
    as (first & e & Hfirst & He & Hctext & _).
  pose proof (lookup_lt_Some _ _ _ Hfirst) as Hlen.
  destruct (scan_end_lines (MCPParser.constant_boundary (indent_of first))
              (lines_of text) (Pos.to_nat lineno - 1 + 1) ltac:(lia))
    as (Hrange & Hat & Hbefore).
  rewrite <- He in Hrange, Hat, Hbefore.
  exists first, e. split; [exact Hfirst|]. split; [exact Hctext|].
  split; [lia|]. split.
  - intros Hlt. destruct (Hat Hlt) as (l & Hl & Hb).
    exists l. split; [exact Hl|].
    unfold MCPParser.constant_boundary in Hb.
    apply andb_true_iff in Hb as [Hne Hb].
    apply andb_true_iff in Hb as [Hind Hb].
    unfold is_blank_line, starts_statement, starts_definition.
    rewrite Hne. apply Nat.leb_le in Hind. auto.
  - intros k l Hk Hl. specialize (Hbefore k l ltac:(lia) Hl).
    unfold MCPParser.constant_boundary in Hbefore.
    unfold is_blank_line, starts_statement, starts_definition.
    destruct (truthy (strip l)); [|left; reflexivity].
    destruct (Nat.leb_spec (indent_of l) (indent_of first)) as [Hi|Hi];
      [|right; left; exact Hi].
    right; right. exact Hbefore.
Qed.

(** X4 at a list written over three lines and followed by another
    assignment: the constant is the three lines. *)
Lemma X4_constant_span_ends_at_next_statement_witness :
  exists e,
    Fixture.text ["X = ["; "  1,"; "]"]
    = strip (join NL (slice (lines_of (Fixture.text
                               ["X = ["; "  1,"; "]"; "Y = 2"; ""])) 0 e))
    /\ 1 <= e <= 5.
Proof.
  destruct (X4_constant_span_ends_at_next_statement
              (Fixture.text ["X = ["; "  1,"; "]"; "Y = 2"; ""]) 1
              (Fixture.text ["X = ["; "  1,"; "]"]) eq_refl)
    as (first & e & _ & Hc & Hrange & _).
  exists e. split; [exact Hc | exact Hrange].
Defined.

(** ** Classification *)


Lemma make_function_name {I : Interpreter} (text : string)
    (imports : list string) (node : FunctionDef) (f : MCPFunction) :
  MCPParser.make_function text imports node = Ok f ->
  name f = fd_name node /\ module_imports f = imports.
Proof.
  unfold MCPParser.make_function.
  destruct (MCPParser._extract_function_source text node); [|discriminate].
  simpl. destruct (MCPParser._build_signature_string node); [|discriminate].
  simpl. intros [= <-]. split; reflexivity.
Qed.




(** ** What the parser does not read *)

Lemma function_nodes_skip (pre post : list stmt) (n : stmt) :
  functions_of_node n = [] ->
  function_nodes (pre ++ n :: post) = function_nodes (pre ++ post).
Proof.
  intros Hn. unfold function_nodes. rewrite !flat_map_app. simpl.
  now rewrite Hn.
Qed.

Lemma constant_targets_skip (pre post : list stmt) (n : stmt) :
  targets_of_node n = [] ->
  constant_targets (pre ++ n :: post) = constant_targets (pre ++ post).
Proof.
  intros Hn. unfold constant_targets. rewrite !flat_map_app. simpl.
  now rewrite Hn.
Qed.

Lemma parse_tree_skip {I : Interpreter} (text : string)
    (doc : option string) (pre post : list stmt) (n : stmt) :
  MCPParser.import_lines n = Ok [] ->
  functions_of_node n = [] ->
  targets_of_node n = [] ->
  MCPParser.parse_tree text {| body := pre ++ n :: post; mod_docstring := doc |}
  = MCPParser.parse_tree text {| body := pre ++ post; mod_docstring := doc |}.
Proof.
  intros Himp Hfun Htar. unfold MCPParser.parse_tree. simpl.
  rewrite collect_imports_skip by exact Himp.
  destruct (MCPParser.collect_imports (pre ++ post) []) as [imports|e];
    simpl; [|reflexivity].
  rewrite !classify_spec, !extract_constants_spec.
  now rewrite function_nodes_skip, constant_targets_skip.
Qed.

Lemma methods_of_skip (cpre cpost : list stmt) (n : stmt) :
  is_function_def n = false ->
  methods_of (cpre ++ n :: cpost) = methods_of (cpre ++ cpost).
Proof.
  intros Hn. unfold methods_of. rewrite !omap_app. f_equal.
  destruct n; try reflexivity. discriminate.
Qed.

Lemma defines_nothing_no_function (nodes : list stmt) :
  forallb defines_nothing nodes = true -> function_nodes nodes = [].
Proof.
  unfold function_nodes. induction nodes as [|n nodes IH]; [reflexivity|].
  cbn [forallb flat_map]. intros H. apply andb_true_iff in H as [Hn Hrest].
  rewrite (IH Hrest), app_nil_r. clear IH Hrest.
  destruct n as [| | | | | | |cname cbody cline|]; try reflexivity;
    [discriminate|].
  cbn [functions_of_node defines_nothing] in *. unfold methods_of.
  induction cbody as [|c cbody IH]; [reflexivity|].
  cbn [forallb] in Hn. apply andb_true_iff in Hn as [Hc Hrest].
  cbn [omap list_omap]. destruct c; try discriminate; exact (IH Hrest).
Qed.

(** X6: the parser consults the tree for imports, plain assignments,
    plain function definitions and classes at top level, and for plain
    function definitions directly in the body of a class, and for nothing
    else. On the same text, the result on a tree is the result on this
    tree without an [async def], an augmented or annotated assignment or
    any other statement at top level, and without a nested class, an
    [async def] or an assignment in the body of a class: no entity,
    warning or import line stems from these statements (their text can
    still lie in the span of a neighbour, which is cut from the text). A
    tree all of whose definitions are of these kinds gives no entry point
    and no helper. *)
Theorem X6_no_entity_stems_from_unread_statements
    {I : Interpreter} (text : string) (doc : option string) :
  (forall pre post n,
      ignored_at_top n = true ->
      MCPParser.parse_tree text
        {| body := pre ++ n :: post; mod_docstring := doc |}
      = MCPParser.parse_tree text
          {| body := pre ++ post; mod_docstring := doc |})
  /\ (forall pre post cname cline cpre cpost n,
        is_function_def n = false ->
        MCPParser.parse_tree text
          {| body := pre ++ ClassDef cname (cpre ++ n :: cpost) cline :: post;
             mod_docstring := doc |}
        = MCPParser.parse_tree text
            {| body := pre ++ ClassDef cname (cpre ++ cpost) cline :: post;
               mod_docstring := doc |})
  /\ (forall nodes r,
        forallb defines_nothing nodes = true ->
        MCPParser.parse_tree text {| body := nodes; mod_docstring := doc |}
        = Ok r ->
        mcp_functions r = [] /\ helper_functions r = []).
Proof.
  split; [|split].
  - intros pre post n Hn.
    destruct n; try discriminate; now apply parse_tree_skip.
  - intros pre post cname cline cpre cpost n Hn.
    unfold MCPParser.parse_tree. simpl.
    replace (MCPParser.collect_imports
               (pre ++ ClassDef cname (cpre ++ n :: cpost) cline :: post) [])
      with (MCPParser.collect_imports
              (pre ++ ClassDef cname (cpre ++ cpost) cline :: post) [])
      by (now rewrite !collect_imports_skip).
    destruct (MCPParser.collect_imports
                (pre ++ ClassDef cname (cpre ++ cpost) cline :: post) [])
      as [imports|e]; simpl; [|reflexivity].
    rewrite !classify_spec, !extract_constants_spec.
    unfold function_nodes, constant_targets.
    rewrite !flat_map_app. simpl.
    now rewrite (methods_of_skip cpre cpost n Hn).
  - intros nodes r Hnone Hr.
    destruct (MCPParser.collect_imports nodes []) as [imports|e] eqn:Himp;
      [|unfold MCPParser.parse_tree in Hr; cbn [body] in Hr;
        rewrite Himp in Hr; discriminate].
    rewrite (parse_tree_spec text {| body := nodes; mod_docstring := doc |}
               imports Himp) in Hr.
    injection Hr as <-. cbn [mcp_functions helper_functions body].
    rewrite (defines_nothing_no_function nodes Hnone). split; reflexivity.
Qed.

(** ** When [parse_file] raises *)

Lemma import_lines_named (n : stmt) :
  named_import n -> exists ls, MCPParser.import_lines n = Ok ls.
Proof.
  intros Hn. destruct n as [names|m names level| | | | | | |]; simpl; eauto.
  destruct m as [m|]; [|eauto]. destruct (truthy m); [|eauto].
  destruct names as [|a names]; [contradiction|].
  destruct (String.eqb (alias_name a) "*"); eauto.
Qed.

Lemma collect_imports_named (nodes : list stmt) (acc : list string) :
  Forall named_import nodes ->
  exists imports, MCPParser.collect_imports nodes acc = Ok imports.
Proof.
  intros Hall. revert acc.
  induction Hall as [|n nodes Hn _ IH]; intros acc; simpl; [eauto|].
  destruct (import_lines_named n Hn) as [ls ->]. simpl. apply IH.
Qed.

(** X7: when [ast.parse] builds grammatical trees (every from-import
    names something), [parse_file] raises only what reading the file or
    [ast.parse] raised: no error of the extraction itself reaches the
    caller. *)
Theorem X7_parse_file_raises_only_read_and_syntax_errors
    {I : Interpreter} (file_path : Path) (e : exn) :
  (forall text tree, ast_parse text = Ok tree ->
                     Forall named_import (body tree)) ->
  MCPParser.parse_file file_path = Raise e <->
  read_text file_path = Raise e
  \/ exists text, read_text file_path = Ok text /\ ast_parse text = Raise e.
Proof.
  intros Hgram. unfold MCPParser.parse_file.
  destruct (read_text file_path) as [text|e1] eqn:Hread; simpl.
  - destruct (ast_parse text) as [tree|e2] eqn:Hparse; simpl.
    + destruct (collect_imports_named (body tree) [] (Hgram _ _ Hparse))
        as [imports Himp].
      rewrite (parse_tree_spec text tree imports Himp).
      split; [discriminate|].
      intros [H|(text' & [= <-] & H)]; [discriminate | congruence].
    + split.
      * intros [= <-]. right. eauto.
      * intros [H|(text' & [= <-] & H)]; [discriminate | congruence].
  - split.
    + intros [= <-]. now left.
    + intros [[= <-]|(text' & H & _)]; [reflexivity | discriminate].
Qed.

(** X7 on the disk of the worked inputs: a file that is not there raises
    the error of the read. *)
Lemma X7_parse_file_raises_only_read_and_syntax_errors_witness :
  MCPParser.parse_file (I := Fixture.python) "missing.py" = Raise OSError.
Proof.
  apply (X7_parse_file_raises_only_read_and_syntax_errors
           (I := Fixture.python) "missing.py" OSError).
  - intros text tree H. change (Fixture.disk_parse text = Ok tree) in H.
    unfold Fixture.disk_parse in H.
    destruct (find _ Fixture.disk) as [d|] eqn:Hfind; [|discriminate].
    injection H as <-. apply find_some in Hfind as [Hin _].
    repeat (destruct Hin as [<-|Hin]; [repeat constructor|]).
    destruct Hin.
  - left. reflexivity.
Defined.

(** * Further properties of the builder *)

(** ** The loop over the input files, run *)

Section LoopRuns.

Context {I : Interpreter} {S : Surroundings}.

(** The builder after the files whose results are [results]. *)
Lemma parse_loop_ok (files : list Path) (results : list ParseResult) :
  Forall2 (fun f x => MCPParser.parse_file f = Ok x) files results ->
  forall seen (r : Run),
    parse_loop files seen r
    = ({| builder :=
            {| b_mcp_functions :=
                 b_mcp_functions (builder r)
                 ++ flat_map mcp_functions results;
               b_helper_functions :=
                 b_helper_functions (builder r)
                 ++ flat_map helper_functions results;
               b_module_constants :=
                 (fold_left add_constant (flat_map module_constants results)
                            (seen, b_module_constants (builder r))).2 |};
          ext := ext r;
          trace := trace r |}, Ok tt).
Proof.
  induction 1 as [|f x files results Hf _ IH]; intros seen r.
  - simpl. unfold mret. destruct r as [[m h c] x t]. simpl.
    now rewrite !app_nil_r.
  - simpl. unfold mbind.
    destruct (parse_one_ok seen f r x Hf) as (seen1 & consts1 & Hfold & ->).
    rewrite IH. simpl. rewrite fold_left_app, Hfold, <- !app_assoc.
    reflexivity.
Qed.

(** The loop stops at the first file that cannot be parsed. *)
Lemma parse_loop_raise (done rest : list Path) (f : Path)
    (results : list ParseResult) (e : exn) :
  Forall2 (fun f x => MCPParser.parse_file f = Ok x) done results ->
  MCPParser.parse_file f = Raise e ->
  forall seen (r : Run),
    parse_loop (done ++ f :: rest) seen r
    = ({| builder :=
            {| b_mcp_functions :=
                 b_mcp_functions (builder r)
                 ++ flat_map mcp_functions results;
               b_helper_functions :=
                 b_helper_functions (builder r)
                 ++ flat_map helper_functions results;
               b_module_constants :=
                 (fold_left add_constant (flat_map module_constants results)
                            (seen, b_module_constants (builder r))).2 |};
          ext := ext r;
          trace := trace r |}, Raise e).
Proof.
  intros Hdone Hf.
  induction Hdone as [|g x done results Hg _ IH]; intros seen r.
  - simpl. unfold mbind. rewrite (parse_one_raise seen f r e Hf).
    destruct r as [[m h c] x t]. simpl. now rewrite !app_nil_r.
  - simpl. unfold mbind.
    destruct (parse_one_ok seen g r x Hg) as (seen1 & consts1 & Hfold & ->).
    rewrite IH. simpl. rewrite fold_left_app, Hfold, <- !app_assoc.
    reflexivity.
Qed.

(** X8: when every file parses and an entry point is found, the parsing
    stage succeeds and leaves in the builder the entry points of all files
    and the helpers of all files, each in the order of the files and of
    their definitions, none dropped or merged; it touches nothing
    else. *)
Theorem X8_parsing_stage_collects_in_file_order
    (files : list Path) (results : list ParseResult) (r : Run) :
  Forall2 (fun f x => MCPParser.parse_file f = Ok x) files results ->
  b_mcp_functions (builder r) ++ flat_map mcp_functions results <> [] ->
  exists r',
    _parse_input_files files r = (r', Ok tt)
    /\ b_mcp_functions (builder r')
       = b_mcp_functions (builder r) ++ flat_map mcp_functions results
    /\ b_helper_functions (builder r')
       = b_helper_functions (builder r) ++ flat_map helper_functions results
    /\ ext r' = ext r
    /\ trace r' = trace r.
Proof.
  intros Hok Hsome. unfold _parse_input_files, mseq, mbind.
  rewrite (parse_loop_ok files results Hok). unfold get_builder.
  cbv beta iota. cbn [builder b_mcp_functions].
  destruct (b_mcp_functions (builder r) ++ flat_map mcp_functions results)
    eqn:E; [contradiction|].
  eexists. split; [reflexivity|]. cbn [builder b_mcp_functions
    b_helper_functions ext trace]. repeat split.
Qed.

(** X9: when a file cannot be read or parsed, [build] raises that error
    to its caller at once: the files after it are not parsed, no later
    step is entered and nothing a later step acts on has changed. The
    functions of the files before it are already in the builder. *)
Theorem X9_unparsable_file_aborts_the_build
    (done rest : list Path) (f : Path) (results : list ParseResult)
    (e : exn) (r : Run) :
  Forall2 (fun f x => MCPParser.parse_file f = Ok x) done results ->
  MCPParser.parse_file f = Raise e ->
  exists r',
    build (done ++ f :: rest) r = (r', Raise e)
    /\ trace r' = trace r ++ [ParseInputFiles]
    /\ ext r' = ext r
    /\ b_mcp_functions (builder r')
       = b_mcp_functions (builder r) ++ flat_map mcp_functions results.
Proof.
  intros Hdone Hf. unfold build. rewrite mseq_enter.
  eexists. split.
  - apply mseq_raise. unfold _parse_input_files. apply mseq_raise.
    apply (parse_loop_raise done rest f results e Hdone Hf).
  - simpl. repeat split.
Qed.

End LoopRuns.

(** X8 on the two files of the worked inputs: one entry point, [f]. *)
Lemma X8_parsing_stage_collects_in_file_order_witness :
  exists r',
    _parse_input_files (I := Fixture.python) (S := Fixture.recorder)
      ["one.py"; "two.py"] Fixture.fresh_run = (r', Ok tt)
    /\ map name (b_mcp_functions (builder r')) = ["f"].
Proof.
  eassert (Hres : Forall2
                    (fun f x => MCPParser.parse_file (I := Fixture.python) f
                                = Ok x)
                    ["one.py"; "two.py"] _).
  { constructor; [vm_compute; reflexivity|].
    constructor; [vm_compute; reflexivity|]. constructor. }
  destruct (X8_parsing_stage_collects_in_file_order
              (I := Fixture.python) (S := Fixture.recorder)
              ["one.py"; "two.py"] _ Fixture.fresh_run Hres)
    as (r' & Hrun & Hmcp & _).
  - vm_compute. discriminate.
  - exists r'. split; [exact Hrun|]. rewrite Hmcp. vm_compute. reflexivity.
Defined.

(** X9 on a file that is not on the disk, after one that is: the build
    raises the error of the read and has entered the parsing stage
    only. *)
Lemma X9_unparsable_file_aborts_the_build_witness :
  exists r',
    build (I := Fixture.python) (S := Fixture.recorder)
      ["one.py"; "missing.py"; "two.py"] Fixture.fresh_run
    = (r', Raise OSError)
    /\ trace r' = [ParseInputFiles]
    /\ ext r' = [].
Proof.
  eassert (Hres : Forall2
                    (fun f x => MCPParser.parse_file (I := Fixture.python) f
                                = Ok x)
                    ["one.py"] _).
  { constructor; [vm_compute; reflexivity | constructor]. }
  destruct (X9_unparsable_file_aborts_the_build
              (I := Fixture.python) (S := Fixture.recorder)
              ["one.py"] ["two.py"] "missing.py" _ OSError
              Fixture.fresh_run Hres eq_refl)
    as (r' & Hrun & Htrace & Hext & _).
  exists r'. repeat split; assumption.
Defined.

(** ** The tables of docstrings and of test prompts *)

(** A loop that stores one value per function under the function's name:
    afterwards every function has an entry, the other names are untouched,
    and the entry of a name is the one stored for the last function of
    that name. *)
Lemma table_loop {St V : Type} (tbl : St -> gmap string V)
    (step : St -> MCPFunction -> St) (P : MCPFunction -> V -> Prop) :
  (forall acc f, exists v,
      tbl (step acc f) = <[name f := v]> (tbl acc) /\ P f v) ->
  forall fs acc,
    (forall f, In f fs -> is_Some (tbl (fold_left step fs acc) !! name f))
    /\ (forall k, ~ In k (map name fs) ->
          tbl (fold_left step fs acc) !! k = tbl acc !! k)
    /\ (forall pre f post,
          fs = pre ++ f :: post -> ~ In (name f) (map name post) ->
          exists v, tbl (fold_left step fs acc) !! name f = Some v /\ P f v).
Proof.
  intros Hstep fs. induction fs as [|g fs IH]; intros acc.
  - split; [intros f []|]. split; [reflexivity|].
    intros [|? ?] f post; discriminate.
  - simpl. destruct (IH (step acc g)) as (Hcov & Hkeep & Hlast).
    destruct (Hstep acc g) as (v & Htbl & Hv).
    assert (Hg : ~ In (name g) (map name fs) ->
                 tbl (fold_left step fs (step acc g)) !! name g = Some v).
    { intros Hnot. rewrite (Hkeep _ Hnot), Htbl. apply lookup_insert_eq. }
    split; [|split].
    + intros f [<-|Hf]; [|now apply Hcov].
      destruct (in_dec string_dec (name g) (map name fs)) as [Hin|Hnot].
      * apply in_map_iff in Hin as (f' & Hname & Hf').
        rewrite <- Hname. now apply Hcov.
      * rewrite (Hg Hnot). eauto.
    + intros k Hk. rewrite Hkeep by tauto. rewrite Htbl.
      apply lookup_insert_ne. tauto.
    + intros pre f post Hfs Hnot. destruct pre as [|g' pre].
      * injection Hfs as <- <-. rewrite (Hg Hnot). eauto.
      * injection Hfs as <- ->. now apply (Hlast pre f post).
Qed.

(** The same loop, when the value stored for a function is [val] of the
    state the loop is in and of the function: the entry of a name is the
    value computed for the last function of that name, in the state the
    loop had reached before it. *)
Lemma table_loop_at {St V : Type} (tbl : St -> gmap string V)
    (step : St -> MCPFunction -> St) (val : St -> MCPFunction -> V) :
  (forall acc f, tbl (step acc f) = <[name f := val acc f]> (tbl acc)) ->
  forall pre f post acc,
    ~ In (name f) (map name post) ->
    tbl (fold_left step (pre ++ f :: post) acc) !! name f
    = Some (val (fold_left step pre acc) f).
Proof.
  intros Hstep pre f post acc Hnot.
  rewrite fold_left_app. cbn [fold_left].
  destruct (table_loop tbl step (fun _ _ => True)) with
    (fs := post) (acc := step (fold_left step pre acc) f) as (_ & Hkeep & _).
  { intros acc0 f0. exists (val acc0 f0). split; [apply Hstep | exact I]. }
  rewrite (Hkeep _ Hnot), Hstep. apply lookup_insert_eq.
Qed.

Section TableFacts.

Context {D : DocstringImprover}.

Lemma improved_covers (fs : list MCPFunction) (preserve_docstrings : bool)
    (m : Model) (t : gmap string string) :
  forall f, In f fs ->
    is_Some ((_improve_docstrings preserve_docstrings fs (m, t)).2 !! name f).
Proof.
  unfold _improve_docstrings. destruct preserve_docstrings; simpl.
  - apply (table_loop (fun t => t) preserve_one (fun _ _ => True)).
    intros acc f. exists (docstring f). split; [reflexivity | exact I].
  - apply (table_loop snd improve_one (fun _ _ => True)).
    intros [m0 t0] f. unfold improve_one.
    destruct (improve_function_docstring (name f) (docstring f)
                (signature f) m0) as [m1 [d|e]]; eexists; split;
      try reflexivity; exact I.
Qed.

(** X10: [_improve_docstrings] leaves an entry in the table of docstrings
    for every entry point and touches no other name. The entry of a name
    is the one of the last entry point [f] of that name. When docstrings
    are preserved it is the docstring of [f], and the improver is left as
    it was. Otherwise it is what the improver, in the state the loop had
    brought it to before [f], answers for [f], and the docstring of [f]
    exactly when that call raises. *)
Theorem X10_every_entry_point_gets_a_docstring
    (preserve_docstrings : bool) (fs : list MCPFunction) (m : Model)
    (t : gmap string string) :
  (forall f, In f fs ->
     is_Some ((_improve_docstrings preserve_docstrings fs (m, t)).2
              !! name f))
  /\ (forall k, ~ In k (map name fs) ->
        (_improve_docstrings preserve_docstrings fs (m, t)).2 !! k = t !! k)
  /\ (forall pre f post,
        fs = pre ++ f :: post -> ~ In (name f) (map name post) ->
        (_improve_docstrings preserve_docstrings fs (m, t)).2 !! name f
        = Some
            (if preserve_docstrings then docstring f
             else
               match
                 (improve_function_docstring
                    (name f) (docstring f) (signature f)
                    (_improve_docstrings false pre (m, t)).1).2
               with
               | Ok improved => improved
               | Raise _ => docstring f
               end))
  /\ (preserve_docstrings = true ->
      (_improve_docstrings preserve_docstrings fs (m, t)).1 = m).
Proof.
  split; [apply improved_covers|].
  unfold _improve_docstrings. destruct preserve_docstrings; cbn [fst snd].
  - destruct (table_loop (fun t => t) preserve_one (fun _ _ => True))
      with (fs := fs) (acc := t) as (_ & Hkeep & _).
    { intros acc f. exists (docstring f). split; [reflexivity | exact I]. }
    split; [exact Hkeep|]. split; [|reflexivity].
    intros pre f post -> Hnot.
    exact (table_loop_at (fun t => t) preserve_one (fun _ f => docstring f)
             (fun _ _ => eq_refl) pre f post t Hnot).
  - destruct (table_loop snd improve_one (fun _ _ => True))
      with (fs := fs) (acc := (m, t)) as (_ & Hkeep & _).
    { intros [m0 t0] f. unfold improve_one.
      destruct (improve_function_docstring (name f) (docstring f)
                  (signature f) m0) as [m1 [d|e]]; eexists; split;
        try reflexivity; exact I. }
    split; [exact Hkeep|]. split; [|discriminate].
    intros pre f post -> Hnot.
    apply (table_loop_at snd improve_one
             (fun acc f =>
                match
                  (improve_function_docstring
                     (name f) (docstring f) (signature f) acc.1).2
                with
                | Ok improved => improved
                | Raise _ => docstring f
                end)); [|exact Hnot].
    intros [m0 t0] f0. unfold improve_one. cbn [fst snd].
    now destruct (improve_function_docstring (name f0) (docstring f0)
                    (signature f0) m0) as [m1 [d|e]].
Qed.

(** X11: after [_improve_docstrings], [_generate_test_prompts] finds the
    docstring of every entry point in the table, so its [KeyError] branch
    is not taken, and it leaves a list of prompts for every entry point,
    touching no other name. The list of a name is the one of the last
    entry point [f] of that name: what the improver, in the state the
    loop had brought it to before [f], answers for the docstring of the
    table, and the empty list exactly when that call raises. *)
Theorem X11_every_entry_point_gets_test_prompts
    (preserve_docstrings : bool) (fs : list MCPFunction) (m : Model)
    (t : gmap string string) (p : gmap string (list string)) :
  let improved := _improve_docstrings preserve_docstrings fs (m, t) in
  let prompts := _generate_test_prompts improved.2 fs (improved.1, p) in
  (forall f, In f fs ->
     is_Some (improved.2 !! name f) /\ is_Some (prompts.2 !! name f))
  /\ (forall k, ~ In k (map name fs) -> prompts.2 !! k = p !! k)
  /\ (forall pre f post,
        fs = pre ++ f :: post -> ~ In (name f) (map name post) ->
        exists d,
          improved.2 !! name f = Some d
          /\ prompts.2 !! name f
             = Some
                 match
                   (generate_test_prompts (name f) d (signature f)
                      (_generate_test_prompts improved.2 pre
                         (improved.1, p)).1).2
                 with
                 | Ok generated => generated
                 | Raise _ => []
                 end).
Proof.
  intros improved prompts.
  pose proof (improved_covers fs preserve_docstrings m t) as Hcov.
  fold improved in Hcov.
  destruct (table_loop snd (prompts_one improved.2) (fun _ _ => True))
    with (fs := fs) (acc := (improved.1, p)) as (Hpcov & Hpkeep & _).
  { intros [m0 p0] f. unfold prompts_one.
    destruct (improved.2 !! name f) as [d|].
    - destruct (generate_test_prompts (name f) d (signature f) m0)
        as [m1 [ps|e]]; eexists; split; try reflexivity; exact I.
    - eexists; split; [reflexivity | exact I]. }
  fold (_generate_test_prompts improved.2 fs (improved.1, p)) in *.
  fold prompts in Hpcov, Hpkeep.
  split; [|split; [exact Hpkeep|]].
  - intros f Hf. split; [now apply Hcov | now apply Hpcov].
  - intros pre f post Hfs Hnot.
    assert (Hf : In f fs) by (rewrite Hfs; apply in_elt).
    destruct (Hcov f Hf) as [d Hd]. exists d. split; [exact Hd|].
    unfold prompts, _generate_test_prompts. rewrite Hfs.
    rewrite (table_loop_at snd (prompts_one improved.2)
               (fun acc f =>
                  match improved.2 !! name f with
                  | None => []
                  | Some doc =>
                      match
                        (generate_test_prompts (name f) doc (signature f)
                           acc.1).2
                      with
                      | Ok generated => generated
                      | Raise _ => []
                      end
                  end)); [| |exact Hnot].
    + now rewrite Hd.
    + intros [m0 p0] f0. unfold prompts_one. cbn [fst snd].
      destruct (improved.2 !! name f0) as [doc|]; [|reflexivity].
      now destruct (generate_test_prompts (name f0) doc (signature f0) m0)
        as [m1 [ps|e]].
Qed.

End TableFacts.

(** * The signature, read back by the interface generator *)

(** ** Characters in strings *)

Lemma contains_char_cons (c d : ascii) (s : string) :
  contains (String c "") (String d s)
  = (if ascii_dec c d then true else false) || contains (String c "") s.
Proof.
  cbn [contains String.prefix]. destruct (ascii_dec c d); [|reflexivity].
  now destruct s.
Qed.

Lemma contains_char_nil (c : ascii) : contains (String c "") "" = false.
Proof. reflexivity. Qed.

Lemma contains_char_app (c : ascii) (a b : string) :
  contains (String c "") (a +:+ b)
  = contains (String c "") a || contains (String c "") b.
Proof.
  induction a as [|d a IH]; [reflexivity|].
  rewrite string_app_cons, !contains_char_cons, IH. now rewrite orb_assoc.
Qed.

Lemma split_no_sep (sep : ascii) (a : string) :
  contains (String sep "") a = false -> split sep a = [a].
Proof.
  induction a as [|d a IH]; [reflexivity|].
  rewrite contains_char_cons. intros H. apply orb_false_iff in H as [Hd Ha].
  cbn [split]. destruct (Ascii.eqb_spec d sep) as [->|Hne].
  - destruct (ascii_dec sep sep); [discriminate | congruence].
  - now rewrite (IH Ha).
Qed.

Lemma split_app_sep (sep : ascii) (a b : string) :
  contains (String sep "") a = false ->
  split sep (a +:+ String sep b) = a :: split sep b.
Proof.
  induction a as [|d a IH].
  - intros _. change ("" +:+ String sep b) with (String sep b).
    cbn [split]. now rewrite Ascii.eqb_refl.
  - rewrite contains_char_cons. intros H. apply orb_false_iff in H as [Hd Ha].
    rewrite string_app_cons. cbn [split].
    destruct (Ascii.eqb_spec d sep) as [->|Hne].
    + destruct (ascii_dec sep sep); [discriminate | congruence].
    + now rewrite (IH Ha).
Qed.

Lemma split_once_app_sep (sep : ascii) (a b : string) :
  contains (String sep "") a = false ->
  split_once sep (a +:+ String sep b) = [a; b].
Proof.
  induction a as [|d a IH].
  - intros _. change ("" +:+ String sep b) with (String sep b).
    cbn [split_once]. now rewrite Ascii.eqb_refl.
  - rewrite contains_char_cons. intros H. apply orb_false_iff in H as [Hd Ha].
    rewrite string_app_cons. cbn [split_once].
    destruct (Ascii.eqb_spec d sep) as [->|Hne].
    + destruct (ascii_dec sep sep); [discriminate | congruence].
    + now rewrite (IH Ha).
Qed.

(** ** White space around strings *)

Lemma lstrip_length (s : string) : String.length (lstrip s) <= String.length s.
Proof.
  induction s as [|c s IH]; simpl; [lia|].
  destruct (is_space c); simpl; lia.
Qed.

Lemma rstrip_length (s : string) : String.length (rstrip s) <= String.length s.
Proof.
  induction s as [|c s IH]; simpl; [lia|].
  destruct (rstrip s); [destruct (is_space c)|]; simpl in *; lia.
Qed.

Lemma strip_fixed_first (c : ascii) (s : string) :
  strip (String c s) = String c s -> is_space c = false.
Proof.
  intros H. destruct (is_space c) eqn:Hc; [|reflexivity].
  unfold strip in H. simpl in H. rewrite Hc in H.
  pose proof (rstrip_length (lstrip s)). pose proof (lstrip_length s).
  rewrite H in *. simpl in *. lia.
Qed.

Lemma strip_fixed_rstrip (s : string) : strip s = s -> rstrip s = s.
Proof.
  destruct s as [|c s]; [reflexivity|]. intros H.
  pose proof (strip_fixed_first c s H) as Hc.
  unfold strip in H. simpl in H. now rewrite Hc in H.
Qed.

Lemma rstrip_app (a b : string) :
  rstrip b <> "" -> rstrip (a +:+ b) = a +:+ rstrip b.
Proof.
  intros Hb. induction a as [|c a IH]; [reflexivity|].
  rewrite !string_app_cons. cbn [rstrip]. rewrite IH.
  destruct (a +:+ rstrip b) as [|d r] eqn:E; [|reflexivity].
  destruct a; [|discriminate]. now destruct (rstrip b).
Qed.

Lemma strip_app (c : ascii) (a b : string) :
  is_space c = false -> rstrip b <> "" ->
  strip (String c a +:+ b) = String c a +:+ rstrip b.
Proof.
  intros Hc Hb. unfold strip. rewrite string_app_cons. cbn [lstrip].
  rewrite Hc. rewrite <- string_app_cons. now apply rstrip_app.
Qed.

Lemma strip_space_first (s : string) : strip (" " +:+ s) = strip s.
Proof. reflexivity. Qed.

(** ** One parameter, rendered and read back *)

Lemma param_of_spaced (s : string) :
  GradioGenerator.param_of (" " +:+ s) = GradioGenerator.param_of s.
Proof. reflexivity. Qed.

Lemma rendered_plain {I : Interpreter} (a : ast_arg) (s : string) :
  plain_param a -> rendered a s ->
  contains "," s = false
  /\ contains ")" s = false
  /\ (exists c s', s = String c s' /\ is_space c = false)
  /\ exists p, GradioGenerator.param_of s = Ok p /\ read_back a p.
Proof.
  intros [(Hne & Hstrip & Hcomma & Hparen & Hcolon) Hann] Hr.
  destruct (arg a) as [|c n] eqn:Harg; [contradiction|].
  pose proof (strip_fixed_first c n Hstrip) as Hc.
  unfold rendered, read_back in *. rewrite Harg in *.
  destruct (annotation a) as [t|].
  - destruct Hr as (ty & Hty & ->).
    destruct Hann as (ty' & Hty' & Htne & Htstrip & Htcomma & Htparen).
    rewrite Hty in Hty'. injection Hty' as <-.
    pose proof (strip_fixed_rstrip ty Htstrip) as Hrs.
    assert (Hrne : rstrip ty <> "") by now rewrite Hrs.
    assert (Hss : strip (String c n +:+ ": " +:+ ty)
                  = String c n +:+ ": " +:+ ty).
    { rewrite strip_app; [|exact Hc|].
      - rewrite (rstrip_app ": " ty Hrne). now rewrite Hrs.
      - rewrite (rstrip_app ": " ty Hrne). rewrite Hrs. discriminate. }
    split; [|split; [|split]].
    + rewrite !contains_char_app, Hcomma, Htcomma. reflexivity.
    + rewrite !contains_char_app, Hparen, Htparen. reflexivity.
    + exists c, (n +:+ ": " +:+ ty). split; [reflexivity | exact Hc].
    + exists (String c n, ty). split; [|split; [reflexivity | exact Hty]].
      assert (Hhas : contains ":" (String c n +:+ ": " +:+ ty) = true)
        by (rewrite !contains_char_app, Hcolon; reflexivity).
      unfold GradioGenerator.param_of. rewrite Hss, Hhas.
      change (": " +:+ ty) with (String ":" (" " +:+ ty)).
      rewrite (split_once_app_sep ":" (String c n) (" " +:+ ty) Hcolon).
      rewrite Hstrip, strip_space_first, Htstrip. reflexivity.
  - subst s. split; [exact Hcomma|]. split; [exact Hparen|].
    split; [eauto|].
    exists (String c n, "str"). split; [|split; reflexivity].
    unfold GradioGenerator.param_of. rewrite Hstrip, Hcolon. reflexivity.
Qed.

Lemma split_join_comma (s0 : string) (strs : list string) :
  contains "," s0 = false ->
  Forall (fun s => contains "," s = false) strs ->
  split "," (join ", " (s0 :: strs))
  = s0 :: map (fun s => " " +:+ s) strs.
Proof.
  intros H0 Hall. revert s0 H0.
  induction Hall as [|s1 strs H1 _ IH]; intros s0 H0.
  - simpl. now apply split_no_sep.
  - rewrite join_cons by discriminate.
    change (", " +:+ join ", " (s1 :: strs))
      with (String "," (" " +:+ join ", " (s1 :: strs))).
    rewrite (split_app_sep "," s0 _ H0).
    change (" " +:+ join ", " (s1 :: strs))
      with (String " " (join ", " (s1 :: strs))).
    cbn [split]. replace (Ascii.eqb " " ",") with false by reflexivity.
    rewrite (IH s1 H1). reflexivity.
Qed.

Lemma join_free (c : ascii) (sep : string) (strs : list string) :
  contains (String c "") sep = false ->
  Forall (fun s => contains (String c "") s = false) strs ->
  contains (String c "") (join sep strs) = false.
Proof.
  intros Hsep Hall. induction Hall as [|s strs Hs Hall IH]; [reflexivity|].
  destruct strs as [|s' strs]; [exact Hs|].
  rewrite join_cons by discriminate.
  now rewrite !contains_char_app, Hs, Hsep, IH.
Qed.

Lemma rstrip_not_nil (c : ascii) (s : string) :
  is_space c = false -> rstrip (String c s) <> "".
Proof.
  intros Hc. cbn [rstrip]. destruct (rstrip s); [now rewrite Hc | discriminate].
Qed.

(** X12: the interface generator reads back the parameters the parser
    wrote into a signature. When every regular parameter has a plain name
    and a plain rendered type, [_extract_params_from_signature] applied to
    the string [_build_signature_string] returns does not raise and gives
    one pair per parameter, in order: the name, and the rendered type or
    [str] for a parameter without annotation. *)
Theorem X12_signature_is_read_back
    {I : Interpreter} (node : FunctionDef) (sig : string) :
  MCPParser._build_signature_string node = Ok sig ->
  Forall plain_param (args (fd_args node)) ->
  exists params,
    GradioGenerator._extract_params_from_signature sig = Ok params
    /\ Forall2 read_back (args (fd_args node)) params.
Proof.
  intros Hsig Hplain.
  destruct (signature_shape node sig Hsig) as (strs & suffix & Hstrs & _ & ->).
  apply rmap_arg_str_rendered in Hstrs.
  assert (Hpieces : Forall2
            (fun a s =>
               contains "," s = false /\ contains ")" s = false
               /\ (exists c s', s = String c s' /\ is_space c = false)
               /\ exists p, GradioGenerator.param_of s = Ok p
                            /\ read_back a p)
            (args (fd_args node)) strs).
  { clear Hsig. induction Hstrs as [|a s l strs Hr _ IH]; [constructor|].
    inversion Hplain; subst. constructor; [|now apply IH].
    now apply rendered_plain. }
  clear Hstrs Hplain Hsig.
  unfold GradioGenerator._extract_params_from_signature.
  assert (Hstart : startswith "(" ("(" +:+ join ", " strs +:+ ")" +:+ suffix)
                   = true) by apply (prefix_app "(").
  rewrite Hstart. cbn [negb].
  assert (Hparen : contains ")" ("(" +:+ join ", " strs) = false).
  { rewrite contains_char_app. apply orb_false_iff. split; [reflexivity|].
    apply join_free; [reflexivity|].
    clear -Hpieces. induction Hpieces as [|a s l strs (_ & H & _) _ IH];
      constructor; assumption. }
  replace ("(" +:+ join ", " strs +:+ ")" +:+ suffix)
    with (("(" +:+ join ", " strs) +:+ String ")" suffix)
    by (now rewrite !string_app_assoc).
  rewrite (split_app_sep ")" _ suffix Hparen). cbn [head default from_second].
  change (from_second (id ("(" +:+ join ", " strs))) with (join ", " strs).
  destruct Hpieces as [|a s0 l strs (Hc0 & _ & (c & s' & -> & Hc) & p0 & Hp0 & Hb0)
                        Hrest].
  - exists []. split; [reflexivity | constructor].
  - assert (Hcommas : Forall (fun s => contains "," s = false) strs).
    { clear -Hrest. induction Hrest as [|a s l strs (H & _) _ IH];
        constructor; assumption. }
    assert (Htruthy : truthy (strip (join ", " (String c s' :: strs))) = true).
    { destruct strs as [|s1 strs].
      - change (join ", " [String c s']) with (String c s').
        unfold strip. cbn [lstrip]. rewrite Hc.
        apply truthy_not_empty, rstrip_not_nil, Hc.
      - rewrite join_cons by discriminate. unfold strip.
        rewrite string_app_cons. cbn [lstrip]. rewrite Hc.
        apply truthy_not_empty, rstrip_not_nil, Hc. }
    rewrite Htruthy, (split_join_comma _ strs Hc0 Hcommas).
    cbn [rmap]. rewrite Hp0. cbn [rbind].
    assert (Hloop : exists ps,
               rmap GradioGenerator.param_of (map (fun s => " " +:+ s) strs)
               = Ok ps /\ Forall2 read_back l ps).
    { clear -Hrest.
      induction Hrest as [|a s l strs (_ & _ & _ & p & Hp & Hb) _ IH].
      - exists []. split; [reflexivity | constructor].
      - destruct IH as (ps & Hps & Hall). exists (p :: ps).
        split; [|now constructor].
        cbn [map rmap]. rewrite param_of_spaced, Hp. cbn [rbind].
        now rewrite Hps. }
    destruct Hloop as (ps & -> & Hall). cbn [rbind].
    exists (p0 :: ps). split; [reflexivity | now constructor].
Qed.

(** X12 at the method of Scenario C: the signature [(self, x: str)] is
    read back as [self] of type [str] and [x] of type [str]. *)
Lemma X12_signature_is_read_back_witness :
  exists params,
    GradioGenerator._extract_params_from_signature "(self, x: str)"
    = Ok params
    /\ Forall2 (read_back (I := Fixture.python))
               [Fixture.plain "self"; Fixture.typed "x" "str"] params.
Proof.
  apply (X12_signature_is_read_back (I := Fixture.python) Fixture.method_m
           "(self, x: str)" eq_refl).
  repeat constructor; try discriminate.
  exists "str". repeat constructor. discriminate.
Defined.

(** * The command line *)

Section MainFacts.

Context {I : Interpreter} {S : Surroundings} {C : CommandLine}.

Lemma later_keeps (s : Step) (r r' : Run) (res : result unit) :
  later s r = (r', res) -> builder r' = builder r /\ trace r' = trace r.
Proof.
  unfold later. destruct (later_step s (builder r) (ext r)) as [x res'].
  intros [= <- <-]. split; reflexivity.
Qed.

Lemma parse_input_files_keeps (files : list Path) (r r' : Run)
    (res : result unit) :
  _parse_input_files files r = (r', res) ->
  trace r' = trace r /\ ext r' = ext r
  /\ (res = Ok tt -> b_mcp_functions (builder r') <> []).
Proof.
  unfold _parse_input_files, mseq, mbind.
  destruct (parse_loop files ∅ r) as [r1 res1] eqn:Hloop.
  destruct (parse_loop_spec files _ _ _ _ Hloop) as (Hext & Htrace & _).
  destruct res1 as [[]|e].
  - unfold get_builder, mraise, mret.
    destruct (b_mcp_functions (builder r1)) eqn:Hm.
    + intros [= <- <-]. split; [exact Htrace|]. split; [exact Hext|].
      discriminate.
    + intros [= <- <-]. split; [exact Htrace|]. split; [exact Hext|].
      intros _. now rewrite Hm.
  - intros [= <- <-]. split; [exact Htrace|]. split; [exact Hext|].
    discriminate.
Qed.

(** A build that returns has gone through all its steps and holds an
    entry point. *)
Lemma build_returns (files : list Path) (r r' : Run) (u : unit) :
  build files r = (r', Ok u) ->
  trace r' = trace r ++ all_steps /\ b_mcp_functions (builder r') <> [].
Proof.
  unfold build. rewrite mseq_enter.
  set (r0 := {| builder := builder r; ext := ext r;
                trace := trace r ++ [ParseInputFiles] |}).
  unfold mseq at 1. unfold mbind at 1.
  destruct (_parse_input_files files r0) as [r1 [[]|e]] eqn:Hparse;
    [|discriminate].
  destruct (parse_input_files_keeps files r0 r1 _ Hparse)
    as (Ht1 & _ & Hm1).
  specialize (Hm1 eq_refl).
  repeat (rewrite mseq_enter;
          match goal with
          | |- context [mseq (later ?s) _ ?r] =>
              unfold mseq at 1; unfold mbind at 1;
              let r2 := fresh "r" in
              let H := fresh "Hstep" in
              destruct (later s r) as [r2 [[]|?]] eqn:H; [|discriminate];
              apply later_keeps in H; cbn [builder trace] in H;
              destruct H as [? ?]
          end).
  rewrite mseq_enter. intros Hlast. apply later_keeps in Hlast.
  cbn [builder trace] in Hlast. destruct Hlast as [Hb Ht].
  split.
  - rewrite Ht. repeat match goal with H : trace _ = _ |- _ => rewrite H end.
    subst r0. cbn [trace]. rewrite <- !app_assoc. reflexivity.
  - rewrite Hb. repeat match goal with H : builder _ = _ |- _ => rewrite H end.
    exact Hm1.
Qed.

Lemma validate_true (files : list Path) :
  Cli.validate files = Ok true ->
  forall f, In f files -> path_exists f = Ok true /\ path_suffix f = ".py".
Proof.
  induction files as [|g files IH]; intros Hv f Hf; [destruct Hf|].
  simpl in Hv. destruct (path_exists g) as [[|]|e] eqn:Hg; simpl in Hv;
    try discriminate.
  destruct (String.eqb_spec (path_suffix g) ".py") as [Hs|Hs]; simpl in Hv;
    [|discriminate].
  destruct Hf as [<-|Hf]; [split; assumption | now apply IH].
Qed.

(** X13: the exit code 0 means that every input file was there and had
    the suffix [.py], that the build went through all its nine steps in
    order, and that it found an entry point. *)
Theorem X13_exit_code_zero_means_a_full_build
    (files : list Path) (x : Ext) (r : Run) :
  Cli.main files x = (r, 0) ->
  (forall f, In f files -> path_exists f = Ok true /\ path_suffix f = ".py")
  /\ trace r = all_steps
  /\ b_mcp_functions (builder r) <> [].
Proof.
  unfold Cli.main.
  destruct (Cli.validate files) as [[|]|e] eqn:Hv; try discriminate.
  destruct (make_builder files x) as [x' [[]|e]]; [|discriminate].
  destruct (build files (Cli.start x')) as [r' [u|e]] eqn:Hb; [|discriminate].
  intros [= <-]. destruct (build_returns _ _ _ _ Hb) as (Ht & Hm).
  split; [now apply validate_true|]. split; assumption.
Qed.

(** X14: when an input file is not there, or the test of its presence
    raises, or its suffix is not [.py], the exit code is 1 and nothing
    has been done: no configuration, no builder, no step of a build. *)
Theorem X14_invalid_input_file_stops_before_the_build
    (files : list Path) (f : Path) (x : Ext) :
  In f files ->
  path_exists f <> Ok true \/ path_suffix f <> ".py" ->
  Cli.main files x = (Cli.start x, 1).
Proof.
  intros Hf Hbad. unfold Cli.main.
  destruct (Cli.validate files) as [[|]|e] eqn:Hv; try reflexivity.
  destruct (validate_true files Hv f Hf) as [He Hs]. tauto.
Qed.

(** X15: when every input file is valid and parses but none holds an
    entry point, the exit code is 1, the build has entered its parsing
    stage only, and what the later steps act on is as the constructors
    left it. *)
Theorem X15_no_entry_point_gives_exit_code_one
    (files : list Path) (x x' : Ext) :
  Cli.validate files = Ok true ->
  make_builder files x = (x', Ok tt) ->
  (forall f y, In f files -> MCPParser.parse_file f = Ok y ->
               mcp_functions y = []) ->
  exists r,
    Cli.main files x = (r, 1)
    /\ trace r = [ParseInputFiles]
    /\ ext r = x'.
Proof.
  intros Hv Hmake Hnone. unfold Cli.main. rewrite Hv, Hmake.
  unfold build. rewrite mseq_enter.
  set (r0 := {| builder := builder (Cli.start x'); ext := ext (Cli.start x');
                trace := trace (Cli.start x') ++ [ParseInputFiles] |}).
  destruct (parse_input_files_no_entry files r0 eq_refl Hnone)
    as (r' & e & Hrun & Htrace & Hext & _).
  rewrite (mseq_raise _ _ r0 r' e Hrun).
  exists r'. split; [reflexivity|]. split; assumption.
Qed.

End MainFacts.

(** X13 on the two files of the worked inputs: the exit code is 0. *)
Lemma X13_exit_code_zero_means_a_full_build_witness :
  exists r,
    Cli.main (C := Fixture.shell) ["one.py"; "two.py"] [] = (r, 0)
    /\ trace r = all_steps.
Proof.
  assert (H : exists r,
             Cli.main (C := Fixture.shell) ["one.py"; "two.py"] [] = (r, 0)).
  { eexists. vm_compute. reflexivity. }
  destruct H as [r Hr]. exists r. split; [exact Hr|].
  exact (proj1 (proj2 (X13_exit_code_zero_means_a_full_build
                         (C := Fixture.shell) _ _ _ Hr))).
Defined.

(** X14 on a file whose suffix is [.txt], after a valid one: the exit
    code is 1 and no step has been entered. *)
Lemma X14_invalid_input_file_stops_before_the_build_witness :
  Cli.main (C := Fixture.shell) ["one.py"; "notes.txt"] []
  = (Cli.start (S := Fixture.recorder) [], 1).
Proof.
  apply (X14_invalid_input_file_stops_before_the_build
           (C := Fixture.shell) ["one.py"; "notes.txt"] "notes.txt").
  - right. left. reflexivity.
  - left. vm_compute. discriminate.
Defined.

(** X15 on the file that holds a helper only: the exit code is 1 after
    the parsing stage. *)
Lemma X15_no_entry_point_gives_exit_code_one_witness :
  exists r,
    Cli.main (C := Fixture.shell) ["helpers.py"] [] = (r, 1)
    /\ trace r = [ParseInputFiles]
    /\ ext r = [].
Proof.
  apply (X15_no_entry_point_gives_exit_code_one
           (C := Fixture.shell) ["helpers.py"] [] []).
  - reflexivity.
  - reflexivity.
  - intros f y [<-|[]] Hy. vm_compute in Hy. injection Hy as <-. reflexivity.
Defined.

(** * More on what is collected *)

(** ** Imports *)

Lemma collect_imports_concat (nodes : list stmt) (lss : list (list string))
    (acc : list string) :
  rmap MCPParser.import_lines nodes = Ok lss ->
  MCPParser.collect_imports nodes acc = Ok (acc ++ concat lss).
Proof.
  revert lss acc. induction nodes as [|n nodes IH]; intros lss acc; simpl.
  - intros [= <-]. simpl. now rewrite app_nil_r.
  - destruct (MCPParser.import_lines n) as [ls|e]; simpl; [|discriminate].
    destruct (rmap MCPParser.import_lines nodes) as [lss'|e] eqn:Hrest;
      simpl; [|discriminate].
    intros [= <-]. rewrite (IH lss' (acc ++ ls) eq_refl). simpl.
    now rewrite app_assoc.
Qed.

Lemma collect_imports_rmap (nodes : list stmt) (acc imports : list string) :
  MCPParser.collect_imports nodes acc = Ok imports ->
  exists lss, rmap MCPParser.import_lines nodes = Ok lss.
Proof.
  revert acc. induction nodes as [|n nodes IH]; intros acc; simpl; [eauto|].
  destruct (MCPParser.import_lines n) as [ls|e]; simpl; [|discriminate].
  intros H. destruct (IH _ H) as [lss ->]. simpl. eauto.
Qed.

(** X16: the import list of a file is the lines of its top-level import
    statements, statement after statement in the order of the file, with
    nothing merged or dropped between statements; and every function the
    parser returns carries exactly this list. *)
Theorem X16_functions_carry_the_imports_of_their_file
    {I : Interpreter} (text : string) (tree : ModuleAst) (r : ParseResult) :
  MCPParser.parse_tree text tree = Ok r ->
  (exists lss,
      rmap MCPParser.import_lines (body tree) = Ok lss
      /\ result_imports r = concat lss)
  /\ forall f, In f (mcp_functions r ++ helper_functions r) ->
               module_imports f = result_imports r.
Proof.
  intros Hr.
  destruct (MCPParser.collect_imports (body tree) []) as [imports|e] eqn:Himp;
    [|unfold MCPParser.parse_tree in Hr; rewrite Himp in Hr; discriminate].
  rewrite (parse_tree_spec text tree imports Himp) in Hr.
  injection Hr as <-. simpl. split.
  - destruct (collect_imports_rmap _ _ _ Himp) as [lss Hlss].
    exists lss. split; [exact Hlss|].
    rewrite (collect_imports_concat _ _ [] Hlss) in Himp.
    now injection Himp as <-.
  - intros f Hin.
    assert (Hex : exists n marked,
               entity_of text imports marked n = Some f).
    { apply in_app_or in Hin as [Hin|Hin];
        apply list_elem_of_In, list_elem_of_omap in Hin as (n & _ & Hf);
        eauto. }
    destruct Hex as (n & marked & Hf). unfold entity_of in Hf.
    destruct (Bool.eqb _ marked); [|discriminate].
    destruct (MCPParser.make_function text imports n.2) as [f'|] eqn:Hmk;
      [|discriminate].
    injection Hf as ->. now apply make_function_name in Hmk.
Qed.

(** X16 at the aliased imports: two lines, from two statements. *)
Lemma X16_functions_carry_the_imports_of_their_file_witness :
  exists lss,
    rmap MCPParser.import_lines (body Fixture.aliases_tree) = Ok lss
    /\ concat lss = ["import a"; "from M import A"].
Proof.
  destruct (X16_functions_carry_the_imports_of_their_file
              (I := Fixture.python) Fixture.aliases_text Fixture.aliases_tree
              _ eq_refl) as ((lss & Hlss & Hcat) & _).
  exists lss. split; [exact Hlss|]. rewrite <- Hcat. reflexivity.
Defined.

(** ** Constants, from the parser to the builder *)

Lemma parser_constant_has_sign {I : Interpreter} (text : string)
    (tree : ModuleAst) (r : ParseResult) (c : string) :
  MCPParser.parse_tree text tree = Ok r ->
  In c (module_constants r) -> contains "=" c = true.
Proof.
  intros Hr Hin.
  destruct (MCPParser.collect_imports (body tree) []) as [imports|e] eqn:Himp;
    [|unfold MCPParser.parse_tree in Hr; rewrite Himp in Hr; discriminate].
  rewrite (parse_tree_spec text tree imports Himp) in Hr.
  injection Hr as <-. simpl in Hin.
  apply list_elem_of_In, list_elem_of_omap in Hin as (t & _ & Hc).
  unfold constant_of in Hc.
  destruct (MCPParser.extract_constant text t.2) as [[c'|]|err] eqn:Hex;
    try discriminate.
  injection Hc as ->.
  now destruct (extract_constant_some text t.2 c Hex) as (_ & _ & _ & _ & _ & _ & H).
Qed.

Lemma parse_file_constant_has_sign {I : Interpreter} (f : Path)
    (r : ParseResult) (c : string) :
  MCPParser.parse_file f = Ok r ->
  In c (module_constants r) -> contains "=" c = true.
Proof.
  unfold MCPParser.parse_file.
  destruct (read_text f) as [text|]; simpl; [|discriminate].
  destruct (ast_parse text) as [tree|]; simpl; [|discriminate].
  apply parser_constant_has_sign.
Qed.

Section ConstantsKept.

Context {I : Interpreter} {S : Surroundings}.

(** X17: no constant of the parser is lost for want of a name: after a
    successful parsing stage on a fresh builder, every constant any file's
    parser returned has its name among the names of the kept constants,
    so it is either kept or the later duplicate of a kept one. *)
Theorem X17_every_parsed_constant_has_a_kept_name
    (files : list Path) (results : list ParseResult) (r r' : Run)
    (x : ParseResult) (c : string) :
  b_module_constants (builder r) = [] ->
  Forall2 (fun f x => MCPParser.parse_file f = Ok x) files results ->
  _parse_input_files files r = (r', Ok tt) ->
  In x results -> In c (module_constants x) ->
  In (const_name c) (map const_name (b_module_constants (builder r'))).
Proof.
  intros Hfresh Hok Hrun Hx Hc.
  assert (Hsign : contains "=" c = true).
  { clear -Hok Hx Hc. induction Hok as [|f y files results Hf _ IH];
      [destruct Hx|].
    destruct Hx as [->|Hx]; [|now apply IH].
    exact (parse_file_constant_has_sign f x c Hf Hc). }
  unfold _parse_input_files, mseq, mbind in Hrun.
  rewrite (parse_loop_ok files results Hok) in Hrun.
  unfold get_builder in Hrun. cbv beta iota in Hrun.
  cbn [builder b_mcp_functions] in Hrun.
  destruct (b_mcp_functions (builder r) ++ flat_map mcp_functions results);
    [discriminate|].
  injection Hrun as <-. cbn [builder b_module_constants].
  rewrite Hfresh.
  destruct (fold_left add_constant (flat_map module_constants results) (∅, []))
    as [seen' consts'] eqn:Hfold.
  assert (Hdom : forall k, is_Some ((∅ : gmap string string) !! k)
                           <-> In k (map const_name [])).
  { intros k. rewrite lookup_empty. simpl.
    split; [intros [? [=]] | intros []]. }
  destruct (add_constants_spec _ _ _ _ _ Hdom (NoDup_nil_2 (A:=string)) Hfold)
    as (_ & _ & new & _ & _ & Hcov).
  apply Hcov; [|exact Hsign].
  apply in_flat_map. eauto.
Qed.

End ConstantsKept.

(** X17 on the two files of the worked inputs: the constant [X = 2] of
    the second file has the name of a kept constant. *)
Lemma X17_every_parsed_constant_has_a_kept_name_witness :
  exists r',
    _parse_input_files (I := Fixture.python) (S := Fixture.recorder)
      ["one.py"; "two.py"] Fixture.fresh_run = (r', Ok tt)
    /\ In (const_name "X = 2")
          (map const_name (b_module_constants (builder r'))).
Proof.
  eassert (Hres : Forall2
                    (fun f x => MCPParser.parse_file (I := Fixture.python) f
                                = Ok x)
                    ["one.py"; "two.py"] _).
  { constructor; [vm_compute; reflexivity|].
    constructor; [vm_compute; reflexivity|]. constructor. }
  assert (H : exists r',
             _parse_input_files (I := Fixture.python)
               (S := Fixture.recorder) ["one.py"; "two.py"]
               Fixture.fresh_run = (r', Ok tt)).
  { eexists. vm_compute. reflexivity. }
  destruct H as [r' Hrun]. exists r'. split; [exact Hrun|].
  eapply (X17_every_parsed_constant_has_a_kept_name
            (I := Fixture.python) (S := Fixture.recorder)
            ["one.py"; "two.py"] _ Fixture.fresh_run r' _ "X = 2"
            eq_refl Hres Hrun).
  - right. left. reflexivity.
  - left. reflexivity.
Defined.

Section ConstantsGrow.

Context {I : Interpreter} {S : Surroundings}.

(** X18: more input files only add to what the earlier ones gave. When
    the parsing stage succeeds on some files from a fresh builder, it
    succeeds on these files followed by further files that parse; the
    entry points and the constants of the longer run start with those of
    the shorter one, and further files whose constants all bear names
    already kept add no constant. *)
Theorem X18_further_files_only_append
    (files1 files2 : list Path) (results2 : list ParseResult)
    (r r1 : Run) :
  b_module_constants (builder r) = [] ->
  _parse_input_files files1 r = (r1, Ok tt) ->
  Forall2 (fun f x => MCPParser.parse_file f = Ok x) files2 results2 ->
  exists r2 new,
    _parse_input_files (files1 ++ files2) r = (r2, Ok tt)
    /\ b_mcp_functions (builder r2)
       = b_mcp_functions (builder r1) ++ flat_map mcp_functions results2
    /\ b_module_constants (builder r2)
       = b_module_constants (builder r1) ++ new
    /\ ((forall c, In c (flat_map module_constants results2) ->
           In (const_name c)
              (map const_name (b_module_constants (builder r1)))) ->
        new = []).
Proof.
  intros Hfresh Hrun1 Hok2.
  assert (Hok1 : exists results1,
             Forall2 (fun f x => MCPParser.parse_file f = Ok x)
                     files1 results1).
  { unfold _parse_input_files, mseq, mbind in Hrun1.
    destruct (parse_loop files1 ∅ r) as [r0 res] eqn:Hloop.
    destruct (parse_loop_spec files1 _ _ _ _ Hloop)
      as (_ & _ & results1 & _ & _ & _ & _ & Hok & _).
    destruct res as [[]|e]; [|discriminate]. eauto. }
  destruct Hok1 as [results1 Hok1].
  pose proof (Forall2_app Hok1 Hok2) as Hok12.
  unfold _parse_input_files, mseq, mbind in *.
  rewrite (parse_loop_ok files1 results1 Hok1) in Hrun1.
  rewrite (parse_loop_ok (files1 ++ files2) (results1 ++ results2) Hok12).
  unfold get_builder in *. cbv beta iota in *.
  cbn [builder b_mcp_functions] in *.
  rewrite !flat_map_app, fold_left_app, Hfresh in *.
  destruct (b_mcp_functions (builder r) ++ flat_map mcp_functions results1)
    as [|f0 fs0] eqn:Hm1; [discriminate|].
  injection Hrun1 as <-. cbn [builder b_mcp_functions b_module_constants].
  rewrite app_assoc, Hm1.
  destruct (fold_left add_constant (flat_map module_constants results1) (∅, []))
    as [seen1 consts1] eqn:Hfold1.
  destruct (fold_left add_constant (flat_map module_constants results2)
              (seen1, consts1)) as [seen2 consts2] eqn:Hfold2.
  assert (Hdom : forall k, is_Some ((∅ : gmap string string) !! k)
                           <-> In k (map const_name [])).
  { intros k. rewrite lookup_empty. simpl.
    split; [intros [? [=]] | intros []]. }
  destruct (add_constants_spec _ _ _ _ _ Hdom (NoDup_nil_2 (A:=string)) Hfold1)
    as (Hdom1 & Hnd1 & _).
  destruct (add_constants_spec _ _ _ _ _ Hdom1 Hnd1 Hfold2)
    as (_ & _ & new & -> & Hnew & _).
  eexists. exists new. split; [reflexivity|].
  cbn [builder b_mcp_functions b_module_constants fst snd].
  split; [reflexivity|]. split; [reflexivity|].
  intros Hall. destruct new as [|c0 new]; [reflexivity|].
  destruct (Hnew c0 (or_introl eq_refl)) as (Hnot & l1 & l2 & Hcs & _).
  exfalso. apply Hnot, Hall. rewrite Hcs. apply in_elt.
Qed.

End ConstantsGrow.

(** X18 on the two files of the worked inputs: the second file adds no
    constant to those of the first. *)
Lemma X18_further_files_only_append_witness :
  exists r1 r2 : Run (S := Fixture.recorder),
    _parse_input_files (I := Fixture.python) (S := Fixture.recorder)
      ["one.py"; "two.py"] Fixture.fresh_run = (r2, Ok tt)
    /\ b_module_constants (builder r2) = b_module_constants (builder r1) ++ []
    /\ b_module_constants (builder r1) = ["X = 1"].
Proof.
  eassert (Hres : Forall2
                    (fun f x => MCPParser.parse_file (I := Fixture.python) f
                                = Ok x)
                    ["two.py"] _).
  { constructor; [vm_compute; reflexivity | constructor]. }
  assert (H : exists r1,
             _parse_input_files (I := Fixture.python)
               (S := Fixture.recorder) ["one.py"] Fixture.fresh_run
             = (r1, Ok tt)
             /\ b_module_constants (builder r1) = ["X = 1"]).
  { eexists. split; [vm_compute; reflexivity | reflexivity]. }
  destruct H as (r1 & Hrun1 & Hc1).
  destruct (X18_further_files_only_append
              (I := Fixture.python) (S := Fixture.recorder)
              ["one.py"] ["two.py"] _ Fixture.fresh_run r1
              eq_refl Hrun1 Hres)
    as (r2 & new & Hrun2 & _ & Hconsts & Hnone).
  exists r1, r2. split; [exact Hrun2|]. split; [|exact Hc1].
  rewrite Hconsts. f_equal. apply Hnone.
  intros c [<-|[]]. rewrite Hc1. left. reflexivity.
Defined.

(** * The interface generator never raises *)

Lemma split_once_first (sep : ascii) (s : string) :
  contains (String sep "") s = true ->
  exists a b,
    s = a +:+ String sep b
    /\ contains (String sep "") a = false
    /\ split_once sep s = [a; b].
Proof.
  induction s as [|d s IH]; [discriminate|].
  rewrite contains_char_cons. cbn [split_once].
  destruct (Ascii.eqb_spec d sep) as [->|Hne].
  - intros _. exists "", s. repeat split.
  - destruct (ascii_dec sep d) as [->|_]; [congruence|]. simpl. intros Hs.
    destruct (IH Hs) as (a & b & -> & Ha & ->). exists (String d a), b.
    split; [reflexivity|]. split; [|reflexivity].
    rewrite contains_char_cons.
    destruct (ascii_dec sep d); [congruence | exact Ha].
Qed.

Lemma param_of_read_as (piece : string) :
  exists p, GradioGenerator.param_of piece = Ok p /\ read_as piece p.
Proof.
  unfold GradioGenerator.param_of, read_as.
  destruct (contains ":" (strip piece)) eqn:Hc.
  - destruct (split_once_first ":" (strip piece) Hc) as (a & b & Hs & Ha & ->).
    eexists. split; [reflexivity|]. right. exists a, b. auto.
  - eexists. split; [reflexivity|]. now left.
Qed.

Lemma rmap_param_of_read_as (pieces : list string) :
  exists ps,
    rmap GradioGenerator.param_of pieces = Ok ps
    /\ Forall2 read_as pieces ps.
Proof.
  induction pieces as [|p pieces (ps & Hps & Hall)].
  - exists []. split; [reflexivity | constructor].
  - destruct (param_of_read_as p) as (q & Hq & Hread). exists (q :: ps).
    cbn [rmap]. rewrite Hq. cbn [rbind]. rewrite Hps. cbn [rbind].
    split; [reflexivity | now constructor].
Qed.

(** X19: [_extract_params_from_signature] raises on no string: the
    unpacking of [param.split(":", 1)] always finds its two values. A
    string that does not start with an opening parenthesis, or whose text
    between the first character and the first closing parenthesis is
    blank, gives no parameter. Any other string gives one pair for every
    piece of that text between commas, in order: the stripped piece with
    the type [str] when it holds no colon, else the texts before and
    after its first colon, both stripped. *)
Theorem X19_reading_a_signature_never_raises (signature : string) :
  exists params,
    GradioGenerator._extract_params_from_signature signature = Ok params
    /\ (startswith "(" signature = false -> params = [])
    /\ (strip (param_part signature) = "" -> params = [])
    /\ (startswith "(" signature = true ->
        strip (param_part signature) <> "" ->
        Forall2 read_as (split "," (param_part signature)) params).
Proof.
  unfold GradioGenerator._extract_params_from_signature.
  fold (param_part signature).
  destruct (startswith "(" signature); cbn [negb].
  - destruct (strip (param_part signature)) as [|c s] eqn:Hpart;
      cbn [truthy].
    + exists []. split; [reflexivity|]. split; [discriminate|].
      split; [reflexivity | congruence].
    + destruct (rmap_param_of_read_as (split "," (param_part signature)))
        as (ps & -> & Hall).
      exists ps. split; [reflexivity|]. split; [discriminate|].
      split; [discriminate | intros _ _; exact Hall].
  - exists []. split; [reflexivity|]. split; [reflexivity|].
    split; [reflexivity | discriminate].
Qed.

(** * The last definition of a file *)

(** X20: a function after which no line starts a definition at its own
    indentation or to the left of it takes everything to the end of the
    file: its recovered source is the end of the text, trailing blank
    lines and any statements that follow it included. *)
Theorem X20_last_function_runs_to_the_end_of_the_text
    (text : string) (node : FunctionDef) (def_line src : string) :
  lines_of text !! def_index node = Some def_line ->
  (forall k l, def_index node < k -> lines_of text !! k = Some l ->
     is_blank_line l = true
     \/ indent_of def_line < indent_of l
     \/ starts_definition l = false) ->
  MCPParser._extract_function_source text node = Ok src ->
  exists before s,
    text = before +:+ src
    /\ src = join NL (drop s (lines_of text))
    /\ s <= def_index node.
Proof.
  intros Hdl Hnone Hsrc.
  pose proof (lookup_lt_Some _ _ _ Hdl) as Hlen.
  destruct (scan_decorators_spec (lines_of text) (def_index node)
              (def_index node) ltac:(lia) ltac:(lia))
    as (s & Hs & Hwhere & _).
  assert (Hno : Pos.to_nat (fd_lineno node) = S (def_index node))
    by (unfold def_index; lia).
  destruct (scan_end_lines (MCPParser.function_boundary (indent_of def_line))
              (lines_of text) (S (def_index node)) ltac:(lia))
    as (Hrange & Hat & _).
  set (e := MCPParser.scan_end _ _ _ _) in *.
  assert (He : e = length (lines_of text)).
  { destruct (decide (e < length (lines_of text))) as [Hlt|]; [|lia].
    destruct (Hat Hlt) as (l & Hl & Hb). exfalso.
    unfold MCPParser.function_boundary in Hb.
    apply andb_true_iff in Hb as [Hne Hb].
    apply andb_true_iff in Hb as [Hind Hb]. apply Nat.leb_le in Hind.
    destruct (Hnone e l ltac:(lia) Hl) as [H|[H|H]].
    - unfold is_blank_line in H. rewrite Hne in H. discriminate.
    - lia.
    - unfold starts_definition in H. congruence. }
  unfold MCPParser._extract_function_source in Hsrc.
  fold (lines_of text) in Hsrc. fold (def_index node) in Hsrc.
  rewrite Hs in Hsrc. simpl in Hsrc. rewrite Hdl, Hno in Hsrc.
  fold e in Hsrc. injection Hsrc as <-.
  assert (Hsle : s <= def_index node)
    by (destruct Hwhere as [->|[? _]]; lia).
  assert (Hslice : slice (lines_of text) s e = drop s (lines_of text)).
  { unfold slice. apply take_ge. rewrite length_drop. lia. }
  rewrite Hslice.
  pose proof (join_split nl text) as Htext. fold NL in Htext.
  fold (lines_of text) in Htext.
  rewrite <- (take_drop s (lines_of text)) in Htext at 1.
  rewrite join_app in Htext.
  eexists. exists s. split; [|split; [reflexivity | exact Hsle]].
  rewrite <- Htext at 1. now rewrite string_app_assoc.
Qed.

(** X20 at the function followed by [X = 1]: the source of [f] is the
    whole text. *)
Lemma X20_last_function_runs_to_the_end_of_the_text_witness :
  exists before s,
    Fixture.trailing_assignment_text
    = before +:+ Fixture.text ["def f():"; "    return 1"; "X = 1"; ""]
    /\ s <= 0.
Proof.
  assert (Hnone : forall k l,
             def_index Fixture.trailing_assignment_f < k ->
             lines_of Fixture.trailing_assignment_text !! k = Some l ->
             is_blank_line l = true
             \/ indent_of "def f():" < indent_of l
             \/ starts_definition l = false).
  { intros k l Hk Hl.
    change (def_index Fixture.trailing_assignment_f) with 0 in Hk.
    destruct k as [|[|[|[|k]]]]; [lia| | | |];
      vm_compute in Hl; try discriminate;
      injection Hl as <-; vm_compute; auto. }
  destruct (X20_last_function_runs_to_the_end_of_the_text
              Fixture.trailing_assignment_text Fixture.trailing_assignment_f
              "def f():" _ eq_refl Hnone eq_refl)
    as (before & s & Htext & _ & Hs).
  exists before, s. split; [exact Htext | exact Hs].
Defined.

(** * One constant per name *)







Section OnePerName.

Context {I : Interpreter} {S : Surroundings}.


End OnePerName.

